(** * Chart-image attachments of the trading journal

    A shallow embedding of [ChartImageService] (services/chartImageService.ts)
    and of the index, zoom and filter logic of [UniversalChartViewer] and
    [ChartImageUpload], with the properties of the specification proved
    about them.

    Conventions.
    - An [async] method is a computation in the monad [M]: it threads the
      state of the local database and either returns a value or throws.
      Each [await] is a bind; the methods run to completion, one after the
      other (the application is single-threaded and event-driven).
    - [console.log], [console.warn] and [console.error] have no effect on
      the database or on any returned value and are left out.
    - Byte counts and counters are JavaScript numbers holding integers; they
      are integers here ([Z] for sizes, [nat] for counters). *)

From Stdlib Require Import ZArith QArith Qminmax Qround Lqa Ascii String.
From stdpp Require Import gmap strings list fin_maps sorting.

Local Open Scope string_scope.
Local Open Scope Z_scope.

(** ** Data model (types/trade.ts, as listed in section 3 of the spec) *)

Inductive ImageType := beforeEntry | afterExit.

Inductive Storage := Inline | Blob.

#[global] Instance ImageType_eq_dec : EqDecision ImageType.
Proof. solve_decision. Defined.

#[global] Instance Storage_eq_dec : EqDecision Storage.
Proof. solve_decision. Defined.

(** A [Date] is its time value (milliseconds since the epoch). *)
Definition Date := Z.

(** The browser's [File]: a name, a MIME type and the bytes; [size] is the
    number of bytes. *)
Record File := {
  file_name : string;
  file_type : string;
  file_bytes : list Z;
}.

Definition file_size (f : File) : Z := Z.of_nat (length (file_bytes f)).

(** [ChartImage], the descriptor kept in the trade record.  The optional
    fields of the TypeScript interface are options. *)
Record ChartImage := {
  ci_id : string;
  ci_filename : string;
  ci_mimeType : string;
  ci_size : Z;
  ci_uploadedAt : Date;
  ci_storage : Storage;
  ci_blobId : option string;
  ci_compressed : option bool;
  ci_originalSize : option Z;
  ci_data : option (list Z);
}.

(** [ChartImageBlob], one row of the blob table. *)
Record ChartImageBlob := {
  blob_id : string;
  blob_tradeId : string;
  blob_imageType : ImageType;
  blob_filename : string;
  blob_mimeType : string;
  blob_size : Z;
  blob_data : list Z;
  blob_uploadedAt : Date;
  blob_compressed : bool;
  blob_originalSize : option Z;
}.

#[global] Instance ChartImageBlob_eq_dec : EqDecision ChartImageBlob.
Proof. solve_decision. Defined.

(** Of a [Trade] the service reads the [id] only. *)
Record Trade := {
  trade_id : string;
  trade_name : string;
}.

(** JavaScript truthiness of an optional string ([chartImage.blobId] in a
    condition): [undefined] and the empty string are falsy. *)
Definition truthy_string (s : option string) : bool :=
  match s with
  | Some EmptyString => false
  | Some _ => true
  | None => false
  end.

(** [x || false] for an optional boolean. *)
Definition or_false (b : option bool) : bool :=
  match b with Some true => true | _ => false end.

(** ** The persistence gateway and the monad of the service *)

(** The calls the service makes to [DatabaseService]. *)
Inductive DbCall :=
  | GetAllChartImageBlobs
  | GetAllTrades
  | GetChartImageBlob (id : string)
  | SaveChartImageBlob (b : ChartImageBlob)
  | DeleteChartImageBlob (id : string)
  | DeleteTradeChartImageBlobs (tradeId : string).

(** The local database: the blob table keyed by the blob id, the trades,
    and the journal of the calls received so far (oldest first). *)
Record Db := {
  chartImageBlobs : gmap string ChartImageBlob;
  trades : list Trade;
  journal : list DbCall;
}.

(** What a [throw] carries: an [Error] with its message, or another value. *)
Inductive thrown := ErrorObject (message : string) | OtherValue.

Inductive outcome (A : Type) :=
  | Returned (a : A)
  | Thrown (e : thrown).
Arguments Returned {A} a.
Arguments Thrown {A} e.

Definition M (A : Type) : Type := Db → outcome A * Db.

#[global] Instance M_ret : MRet M := λ A a db, (Returned a, db).

#[global] Instance M_bind : MBind M := λ A B k m db,
  match m db with
  | (Returned a, db') => k a db'
  | (Thrown e, db') => (Thrown e, db')
  end.

(** [try { body } catch (error) { handler }]. *)
Definition tryCatch {A} (body : M A) (handler : thrown → M A) : M A := λ db,
  match body db with
  | (Returned a, db') => (Returned a, db')
  | (Thrown e, db') => handler e db'
  end.

Definition throw {A} (e : thrown) : M A := λ db, (Thrown e, db).

(** [error instanceof Error ? error.message : 'Unknown error']. *)
Definition errorMessage (e : thrown) : string :=
  match e with
  | ErrorObject message => message
  | OtherValue => "Unknown error"
  end.

(** Every row is stored under its own id. *)
Definition keyed (t : gmap string ChartImageBlob) : Prop :=
  ∀ k b, t !! k = Some b → blob_id b = k.

Section Service.

(** The environment of a run: which gateway calls throw, and which
    boolean-returning calls report [false] and leave the table as it is. *)
Context (crashes rejects : DbCall → bool).

(** What utils/chartImageUtils.ts and utils/helpers.ts provide and the
    sources do not contain: the validation of a file, the compressor, the
    size threshold of [CHART_IMAGE_CONFIG] below which an image is stored
    inline, the storage chosen for a payload of exactly that size, the ids
    that [generateId] draws in this run, the clock, and the data URL of an
    inline image. *)
Context (validateImageFile : File → bool)
        (compressImage : File → list Z)
        (INLINE_THRESHOLD : Z)
        (storageAtThreshold : Storage)
        (newImageId newBlobId : string)
        (now : Date)
        (getImageDataUrl : ChartImage → string).

Definition logged (c : DbCall) (db : Db) : Db :=
  {| chartImageBlobs := chartImageBlobs db;
     trades := trades db;
     journal := journal db ++ [c] |}.

Definition with_blobs (t : gmap string ChartImageBlob) (db : Db) : Db :=
  {| chartImageBlobs := t; trades := trades db; journal := journal db |}.

(** Modelled from the spec: a read of [DatabaseService] (db/database.ts is
    not among the sources).  Section 6: the gateway exposes save, get and
    delete of a blob by id, delete of all blobs of a trade, list of all
    blobs and list of all trades.  A read returns what the table holds, or
    throws. *)
Definition gatewayRead {A} (c : DbCall) (read : Db → A) : M A := λ db,
  if crashes c then (Thrown (ErrorObject "database error"), logged c db)
  else (Returned (read db), logged c db).

(** Modelled from the spec: a write of [DatabaseService] (not among the
    sources).  It returns [true] after changing the table, returns [false]
    and changes nothing, or throws and changes nothing. *)
Definition gatewayWrite (c : DbCall)
    (write : gmap string ChartImageBlob → gmap string ChartImageBlob) : M bool := λ db,
  if crashes c then (Thrown (ErrorObject "database error"), logged c db)
  else if rejects c then (Returned false, logged c db)
  else (Returned true, logged c (with_blobs (write (chartImageBlobs db)) db)).

(** Modelled from the spec: the six operations of [DatabaseService] that the
    service calls (not among the sources), as reads and writes of the blob
    table: the list of all rows, the list of all trades, the row of an id,
    the save of a row under its id, the delete of the row of an id, and the
    delete of all rows of a trade. *)
Definition getAllChartImageBlobs : M (list ChartImageBlob) :=
  gatewayRead GetAllChartImageBlobs (λ db, (map_to_list (chartImageBlobs db)).*2).

Definition getAllTrades : M (list Trade) :=
  gatewayRead GetAllTrades trades.

Definition getChartImageBlob (id : string) : M (option ChartImageBlob) :=
  gatewayRead (GetChartImageBlob id) (λ db, chartImageBlobs db !! id).

Definition saveChartImageBlob (b : ChartImageBlob) : M bool :=
  gatewayWrite (SaveChartImageBlob b) (λ t, <[blob_id b := b]> t).

Definition deleteChartImageBlob (id : string) : M bool :=
  gatewayWrite (DeleteChartImageBlob id) (λ t, delete id t).

Definition deleteTradeChartImageBlobs (tradeId : string) : M bool :=
  gatewayWrite (DeleteTradeChartImageBlobs tradeId)
    (λ t, filter (λ kb, blob_tradeId kb.2 ≠ tradeId) t).

(** ** ChartImageService.cleanupOrphanedBlobs *)

Record CleanupResult := { cleaned : nat; errors : nat }.

(** [new Set(allTrades.map(trade => trade.id))]. *)
Definition tradeIdSet (allTrades : list Trade) : gset string :=
  list_to_set (trade_id <$> allTrades).

(** [!tradeIds.has(blob.tradeId)]. *)
Definition orphaned (tradeIds : gset string) (b : ChartImageBlob) : bool :=
  bool_decide (blob_tradeId b ∉ tradeIds).

(** The [for (const blob of allBlobs)] loop, with the two counters. *)
Fixpoint cleanupLoop (tradeIds : gset string) (allBlobs : list ChartImageBlob)
    (cleaned errors : nat) : M CleanupResult :=
  match allBlobs with
  | [] => mret {| cleaned := cleaned; errors := errors |}
  | blob :: rest =>
      if orphaned tradeIds blob then
        deleted ← deleteChartImageBlob (blob_id blob);
        if (deleted : bool) then cleanupLoop tradeIds rest (S cleaned) errors
        else cleanupLoop tradeIds rest cleaned (S errors)
      else cleanupLoop tradeIds rest cleaned errors
  end.

Definition cleanupOrphanedBlobs : M CleanupResult :=
  tryCatch
    (allBlobs ← getAllChartImageBlobs;
     allTrades ← getAllTrades;
     let tradeIds := tradeIdSet allTrades in
     cleanupLoop tradeIds allBlobs 0%nat 0%nat)
    (λ _, mret {| cleaned := 0; errors := 1 |}).

(** The gateway does not throw in this run. *)
Definition neverCrashes : Prop := ∀ c, crashes c = false.

(** The rows of the table, as [getAllChartImageBlobs] lists them. *)
Definition rowsOf (db : Db) : list ChartImageBlob :=
  (map_to_list (chartImageBlobs db)).*2.

(** [deleteChartImageBlob(blob.id)] is asked for and reports [true]. *)
Definition removed (tradeIds : gset string) (b : ChartImageBlob) : bool :=
  orphaned tradeIds b && negb (rejects (DeleteChartImageBlob (blob_id b))).

(** [deleteChartImageBlob(blob.id)] is asked for and reports [false]. *)
Definition refused (tradeIds : gset string) (b : ChartImageBlob) : bool :=
  orphaned tradeIds b && rejects (DeleteChartImageBlob (blob_id b)).

(** The table after the loop has gone through [allBlobs]. *)
Definition sweep (tradeIds : gset string) (allBlobs : list ChartImageBlob)
    (t : gmap string ChartImageBlob) : gmap string ChartImageBlob :=
  foldl (λ t b, if removed tradeIds b then delete (blob_id b) t else t) t allBlobs.

(** ** ChartImageService.getStorageStats *)

Record StorageStats := {
  totalImages : nat;
  totalSize : Z;
  inlineImages : nat;
  inlineSize : Z;
  blobImages : nat;
  blobSize : Z;
}.

(** [allBlobs.reduce((total, blob) => total + blob.size, 0)]. *)
Definition sumSizes (allBlobs : list ChartImageBlob) : Z :=
  foldl (λ total b, total + blob_size b) 0 allBlobs.

Definition getStorageStats : M StorageStats :=
  tryCatch
    (allBlobs ← getAllChartImageBlobs;
     let blobSize := sumSizes allBlobs in
     mret {| totalImages := length allBlobs;
             totalSize := blobSize;
             inlineImages := 0;
             inlineSize := 0;
             blobImages := length allBlobs;
             blobSize := blobSize |})
    (λ _, mret {| totalImages := 0; totalSize := 0;
                  inlineImages := 0; inlineSize := 0;
                  blobImages := 0; blobSize := 0 |}).

(** ** createChartImage (utils/chartImageUtils.ts) *)

(** The bytes that are stored: the compressed image when compression is
    asked for, the file as it is otherwise. *)
Definition payload (file : File) (shouldCompress : bool) : list Z :=
  if shouldCompress then compressImage file else file_bytes file.

Definition payloadSize (file : File) (shouldCompress : bool) : Z :=
  Z.of_nat (length (payload file shouldCompress)).

(** Modelled from the spec: the choice of storage of [createChartImage]
    (not among the sources).  Section 8: an image under the size threshold
    is stored inline, one above it as a blob. *)
Definition chooseStorage (size : Z) : Storage :=
  if decide (size < INLINE_THRESHOLD) then Inline
  else if decide (INLINE_THRESHOLD < size) then Blob
  else storageAtThreshold.

(** Modelled from the spec: [createChartImage] (not among the sources).
    Section 4.1: the file is validated, optionally compressed, and the
    descriptor says where the payload goes: embedded in the descriptor
    (inline) or in a separate record named by [blobId] (blob).  A file that
    fails the validation is refused with an error. *)
Definition createChartImage (file : File) (shouldCompress : bool) : M ChartImage :=
  if validateImageFile file then
    let storage := chooseStorage (payloadSize file shouldCompress) in
    mret {| ci_id := newImageId;
            ci_filename := file_name file;
            ci_mimeType := file_type file;
            ci_size := payloadSize file shouldCompress;
            ci_uploadedAt := now;
            ci_storage := storage;
            ci_blobId := if storage is Blob then Some newBlobId else None;
            ci_compressed := Some shouldCompress;
            ci_originalSize := Some (file_size file);
            ci_data := if storage is Inline
                       then Some (payload file shouldCompress) else None |}
  else throw (ErrorObject "Invalid image file").

(** ** ChartImageService.attachChartImage *)

Record AttachResult := {
  success : bool;
  chartImage : option ChartImage;
  error : option string;
}.

(** [chartImage.storage === 'blob' && chartImage.blobId]. *)
Definition usesBlob (chartImage : ChartImage) : bool :=
  bool_decide (ci_storage chartImage = Blob) && truthy_string (ci_blobId chartImage).

(** The [ChartImageBlob] that [attachChartImage] builds; [data] is
    [new Blob([file])], the bytes of the file. *)
Definition imageBlobOf (tradeId : string) (imageType : ImageType) (file : File)
    (chartImage : ChartImage) : ChartImageBlob :=
  {| blob_id := default "" (ci_blobId chartImage);
     blob_tradeId := tradeId;
     blob_imageType := imageType;
     blob_filename := ci_filename chartImage;
     blob_mimeType := ci_mimeType chartImage;
     blob_size := ci_size chartImage;
     blob_data := file_bytes file;
     blob_uploadedAt := ci_uploadedAt chartImage;
     blob_compressed := or_false (ci_compressed chartImage);
     blob_originalSize := ci_originalSize chartImage |}.

Definition attachChartImage (tradeId : string) (imageType : ImageType)
    (file : File) (shouldCompress : bool) : M AttachResult :=
  tryCatch
    (chartImage ← createChartImage file shouldCompress;
     if usesBlob chartImage then
       let imageBlob := imageBlobOf tradeId imageType file chartImage in
       blobSaved ← saveChartImageBlob imageBlob;
       if negb blobSaved then
         mret {| success := false; chartImage := None;
                 error := Some "Failed to save image blob to database" |}
       else
         mret {| success := true; chartImage := Some chartImage; error := None |}
     else
       mret {| success := true; chartImage := Some chartImage; error := None |})
    (λ e, mret {| success := false; chartImage := None;
                  error := Some (errorMessage e) |}).

(** ** ChartImageService.getChartImageDataUrl *)

(** What the method resolves to: the data URL of an inline image, or an
    object URL made of the bytes of the stored blob. *)
Inductive Url := DataUrl (s : string) | ObjectUrl (data : list Z).

Definition getChartImageDataUrl (chartImage : ChartImage) : M (option Url) :=
  tryCatch
    (if bool_decide (ci_storage chartImage = Inline) then
       mret (Some (DataUrl (getImageDataUrl chartImage)))
     else if usesBlob chartImage then
       found ← getChartImageBlob (default "" (ci_blobId chartImage));
       match found with
       | Some b => mret (Some (ObjectUrl (blob_data b)))
       | None => mret None
       end
     else mret None)
    (λ _, mret None).

(** ** ChartImageService.deleteChartImage and deleteTradeChartImages *)

Definition deleteChartImage (tradeId : string) (imageType : ImageType)
    (chartImage : ChartImage) : M bool :=
  tryCatch
    (if usesBlob chartImage then
       blobDeleted ← deleteChartImageBlob (default "" (ci_blobId chartImage));
       mret true
     else mret true)
    (λ _, mret false).

Definition deleteTradeChartImages (tradeId : string) : M bool :=
  tryCatch
    (blobsDeleted ← deleteTradeChartImageBlobs tradeId;
     mret true)
    (λ _, mret false).

(** ** ChartImageUpload.handleDelete *)

(** The callbacks and state setters the handler invokes. *)
Inductive UiEvent :=
  | OnImageDeleted
  | SetError (message : string).

#[global] Instance UiEvent_eq_dec : EqDecision UiEvent.
Proof. solve_decision. Defined.

(** [handleDelete] of the upload component, for the props [tradeId],
    [imageType], [currentImage] and [disabled]; the result lists what it
    invoked, in order.  The callback [onImageDeleted] belongs to the parent
    and is taken to return. *)
Definition handleDelete (tradeId : string) (imageType : ImageType)
    (currentImage : option ChartImage) (disabled : bool) : M (list UiEvent) :=
  match currentImage with
  | Some image =>
      if disabled then mret []
      else
        tryCatch
          (success ← deleteChartImage tradeId imageType image;
           if (success : bool) then mret [OnImageDeleted]
           else mret [SetError "Failed to delete image"])
          (λ e, mret [SetError (match e with
                                | ErrorObject message => message
                                | OtherValue => "Delete failed"
                                end)])
  | None => mret []
  end.

(** Modelled from the spec: the parent's [onImageDeleted] (the parent
    component is not among the sources).  Section 7: the in-memory slot of
    the image is cleared. *)
Definition slotAfter (currentImage : option ChartImage) (events : list UiEvent)
    : option ChartImage :=
  if bool_decide (OnImageDeleted ∈ events) then None else currentImage.

End Service.

(** ** UniversalChartViewer: filter, navigation and zoom *)

(** [ChartImageWithContext]: a blob row with the context of its trade. *)
Record ChartImageWithContext := {
  image : ChartImageBlob;
  tradeName : option string;
  tradeDate : option string;
  tradeNo : option Z;
  dataUrl : option string;
}.

(** ['all' | 'beforeEntry' | 'afterExit']. *)
Inductive FilterType := FilterAll | FilterOnly (imageType : ImageType).

#[global] Instance FilterType_eq_dec : EqDecision FilterType.
Proof. solve_decision. Defined.

(** [s.includes(sub)]: [sub] occurs in [s]. *)
Fixpoint includes (s sub : string) : bool :=
  String.prefix sub s ||
  match s with
  | EmptyString => false
  | String _ rest => includes rest sub
  end.

(** Lower case of the letters A to Z, the other characters unchanged. *)
Definition asciiLower (c : ascii) : ascii :=
  let n := nat_of_ascii c in
  if ((65 <=? n)%nat && (n <=? 90)%nat)%bool then ascii_of_nat (n + 32) else c.

Fixpoint asciiToLowerCase (s : string) : string :=
  match s with
  | EmptyString => EmptyString
  | String c rest => String (asciiLower c) (asciiToLowerCase rest)
  end.

Section Viewer.

(** [String.prototype.toLowerCase] of the runtime. *)
Context (toLowerCase : string → string).

(** [img => img.imageType === filter]. *)
Definition hasType (filter : FilterType) (img : ChartImageWithContext) : bool :=
  match filter with
  | FilterAll => false
  | FilterOnly t => bool_decide (blob_imageType (image img) = t)
  end.

(** [img => img.tradeName?.toLowerCase().includes(symbolSearch.toLowerCase())];
    an image without a trade name gives [undefined], which is falsy. *)
Definition hasSymbol (symbolSearch : string) (img : ChartImageWithContext) : bool :=
  match tradeName img with
  | Some name => includes (toLowerCase name) (toLowerCase symbolSearch)
  | None => false
  end.

Definition filteredImages (allImages : list ChartImageWithContext)
    (filter : FilterType) (symbolSearch : string) : list ChartImageWithContext :=
  let images := allImages in
  let images :=
    if bool_decide (filter ≠ FilterAll) then List.filter (hasType filter) images
    else images in
  let images :=
    if bool_decide (symbolSearch ≠ "") then List.filter (hasSymbol symbolSearch) images
    else images in
  images.

(** The two predicates of the viewer as the spec words them: the type
    filter passes everything when it is "all", the symbol filter passes
    everything when the search string is empty. *)
Definition passesType (filter : FilterType) (img : ChartImageWithContext) : bool :=
  match filter with
  | FilterAll => true
  | FilterOnly t => bool_decide (blob_imageType (image img) = t)
  end.

Definition passesSymbol (symbolSearch : string) (img : ChartImageWithContext) : bool :=
  match symbolSearch with
  | EmptyString => true
  | _ => hasSymbol symbolSearch img
  end.

(** Double-precision arithmetic: the result of a multiplication or a
    division is the exact result rounded to a double. *)
Context (round : Q → Q).

(** The part of the component's state that navigation and zoom read and
    write.  The map of preloaded images, which [preloadAdjacentImages]
    alone writes and neither the index nor the zoom depends on, is left
    out. *)
Record Viewer := {
  currentIndex : Z;
  zoom : Q;
  position : Q * Q;
}.

(** What is assumed of the rounding: it is monotone, and it leaves the
    doubles 0.5 and 5 as they are. *)
Definition roundsToDouble : Prop :=
  (∀ x y : Q, (x <= y)%Q → (round x <= round y)%Q) ∧
  (round (1 # 2) == 1 # 2)%Q ∧ (round 5 == 5)%Q.

Definition initialViewer : Viewer :=
  {| currentIndex := 0; zoom := 1; position := (0, 0)%Q |}.

Definition resetZoom (v : Viewer) : Viewer :=
  {| currentIndex := currentIndex v; zoom := 1; position := (0, 0)%Q |}.

Definition setCurrentIndex (newIndex : Z) (v : Viewer) : Viewer :=
  {| currentIndex := newIndex; zoom := zoom v; position := position v |}.

Definition setZoom (f : Q → Q) (v : Viewer) : Viewer :=
  {| currentIndex := currentIndex v; zoom := f (zoom v); position := position v |}.

(** [filteredImages.length]. *)
Definition len (images : list ChartImageWithContext) : Z := Z.of_nat (length images).

Definition navigateNext (images : list ChartImageWithContext) (v : Viewer) : Viewer :=
  if decide (currentIndex v < len images - 1) then
    let newIndex := currentIndex v + 1 in
    resetZoom (setCurrentIndex newIndex v)
  else v.

Definition navigatePrevious (images : list ChartImageWithContext) (v : Viewer) : Viewer :=
  if decide (currentIndex v > 0) then
    let newIndex := currentIndex v - 1 in
    resetZoom (setCurrentIndex newIndex v)
  else v.

(** [setZoom(prev => Math.min(prev * 1.5, 5))]. *)
Definition handleZoomIn (v : Viewer) : Viewer :=
  setZoom (λ prev, Qmin (round (prev * (3 # 2))) 5) v.

(** [setZoom(prev => Math.max(prev / 1.5, 0.5))]. *)
Definition handleZoomOut (v : Viewer) : Viewer :=
  setZoom (λ prev, Qmax (round (prev / (3 # 2))) (1 # 2)) v.

(** What the user can do to the index and the zoom, and a run of the
    viewer over a fixed list of filtered images. *)
Inductive Action := NavigateNext | NavigatePrevious | ResetZoom | ZoomIn | ZoomOut.

Definition step (images : list ChartImageWithContext) (v : Viewer) (a : Action) : Viewer :=
  match a with
  | NavigateNext => navigateNext images v
  | NavigatePrevious => navigatePrevious images v
  | ResetZoom => resetZoom v
  | ZoomIn => handleZoomIn v
  | ZoomOut => handleZoomOut v
  end.

Definition run (images : list ChartImageWithContext) (actions : list Action) : Viewer :=
  foldl (step images) initialViewer actions.

(** The two invariants of the viewer. *)
Definition zoomInBounds (v : Viewer) : Prop := (1 # 2 <= zoom v)%Q ∧ (zoom v <= 5)%Q.

Definition indexInBounds (images : list ChartImageWithContext) (v : Viewer) : Prop :=
  0 ≤ currentIndex v ≤ len images - 1.

End Viewer.

(** ** ChartImageService.validateChartAttachments *)

(** The values a parameter of type [any] can hold.  An object is its class
    and its own properties; a number is finite, infinite or NaN. *)
Inductive JsNumberValue := NaN | Infinity (negative : bool) | Finite (q : Q).

Inductive ObjectClass := PlainObject | DateObject | ArrayObject | OtherObject.

#[warnings="-register-all"] Inductive JsValue :=
  | JsUndefined
  | JsNull
  | JsBoolean (b : bool)
  | JsNumber (n : JsNumberValue)
  | JsBigInt (z : Z)
  | JsString (s : string)
  | JsSymbol
  | JsFunction (properties : list (string * JsValue))
  | JsObject (class : ObjectClass) (properties : list (string * JsValue)).

(** Conversion to a boolean, as [!x] and [x && y] apply it. *)
Definition truthy (v : JsValue) : bool :=
  match v with
  | JsUndefined | JsNull => false
  | JsBoolean b => b
  | JsNumber NaN => false
  | JsNumber (Infinity _) => true
  | JsNumber (Finite q) => negb (Qeq_bool q 0)
  | JsBigInt z => negb (z =? 0)%Z
  | JsString s => negb (String.eqb s "")
  | JsSymbol | JsFunction _ | JsObject _ _ => true
  end.

Definition typeof (v : JsValue) : string :=
  match v with
  | JsUndefined => "undefined"
  | JsNull => "object"
  | JsBoolean _ => "boolean"
  | JsNumber _ => "number"
  | JsBigInt _ => "bigint"
  | JsString _ => "string"
  | JsSymbol => "symbol"
  | JsFunction _ => "function"
  | JsObject _ _ => "object"
  end.

Fixpoint lookupProperty (properties : list (string * JsValue)) (key : string) : JsValue :=
  match properties with
  | [] => JsUndefined
  | (k, v) :: rest => if String.eqb k key then v else lookupProperty rest key
  end.

(** [v.key] for a value that is not [null] or [undefined]: the property of
    an object, [undefined] when it has none of that name. *)
Definition get (v : JsValue) (key : string) : JsValue :=
  match v with
  | JsObject _ properties | JsFunction properties => lookupProperty properties key
  | _ => JsUndefined
  end.

(** [v instanceof Date]. *)
Definition instanceofDate (v : JsValue) : bool :=
  match v with
  | JsObject DateObject _ => true
  | _ => false
  end.

(** [v === s] for a string literal [s]. *)
Definition strictEquals (v : JsValue) (s : string) : bool :=
  match v with
  | JsString s' => String.eqb s' s
  | _ => false
  end.

Section Validation.

(** [CHART_IMAGE_CONFIG.ALLOWED_TYPES] (utils/chartImageUtils.ts). *)
Context (ALLOWED_TYPES : list string).

(** [ALLOWED_TYPES.includes(v)]: an array of strings holds strings only. *)
Definition allowedTypesIncludes (v : JsValue) : bool :=
  match v with
  | JsString s => bool_decide (s ∈ ALLOWED_TYPES)
  | _ => false
  end.

(** The truth value of the [&&] chain that [validateChartImage] returns. *)
Definition validateChartImage (chartImage : JsValue) : bool :=
  truthy chartImage &&
  String.eqb (typeof chartImage) "object" &&
  String.eqb (typeof (get chartImage "id")) "string" &&
  String.eqb (typeof (get chartImage "filename")) "string" &&
  String.eqb (typeof (get chartImage "mimeType")) "string" &&
  String.eqb (typeof (get chartImage "size")) "number" &&
  instanceofDate (get chartImage "uploadedAt") &&
  (strictEquals (get chartImage "storage") "inline" ||
   strictEquals (get chartImage "storage") "blob") &&
  allowedTypesIncludes (get chartImage "mimeType").

Definition validateChartAttachments (chartAttachments : JsValue) : bool :=
  if negb (truthy chartAttachments) ||
     negb (String.eqb (typeof chartAttachments) "object") then false
  else if truthy (get chartAttachments "beforeEntry") &&
          negb (validateChartImage (get chartAttachments "beforeEntry")) then false
  else if truthy (get chartAttachments "afterExit") &&
          negb (validateChartImage (get chartAttachments "afterExit")) then false
  else true.

(** The per-image check in the words of the spec. *)
Definition isString (v : JsValue) : Prop := ∃ s, v = JsString s.
Definition isNumber (v : JsValue) : Prop := ∃ n, v = JsNumber n.
Definition isDate (v : JsValue) : Prop := ∃ properties, v = JsObject DateObject properties.
Definition isObject (v : JsValue) : Prop := ∃ class properties, v = JsObject class properties.

Definition wellFormedImage (v : JsValue) : Prop :=
  isObject v ∧
  isString (get v "id") ∧
  isString (get v "filename") ∧
  isNumber (get v "size") ∧
  isDate (get v "uploadedAt") ∧
  (get v "storage" = JsString "inline" ∨ get v "storage" = JsString "blob") ∧
  ∃ mimeType, get v "mimeType" = JsString mimeType ∧ mimeType ∈ ALLOWED_TYPES.

End Validation.

(** ** UniversalChartViewer: the image shown, the buttons, panning *)

(** [images[i]]: [undefined] outside the list. *)
Definition imageAt (images : list ChartImageWithContext) (i : Z)
    : option ChartImageWithContext :=
  if decide (0 ≤ i) then images !! Z.to_nat i else None.

(** [const currentImage = filteredImages[currentIndex]]. *)
Definition currentImage (images : list ChartImageWithContext) (v : Viewer)
    : option ChartImageWithContext :=
  imageAt images (currentIndex v).

(** The [isDisabled] conditions of the four buttons. *)
Definition previousDisabled (v : Viewer) : bool := bool_decide (currentIndex v ≤ 0).

Definition nextDisabled (images : list ChartImageWithContext) (v : Viewer) : bool :=
  bool_decide (len images - 1 ≤ currentIndex v).

Definition zoomOutDisabled (v : Viewer) : bool := Qle_bool (zoom v) (1 # 2).

Definition zoomInDisabled (v : Viewer) : bool := Qle_bool 5 (zoom v).

(** [zoom > 1]. *)
Definition zoomedIn (v : Viewer) : bool := negb (Qle_bool (zoom v) 1).

(** The state of a drag: [isDragging] and [dragStart]. *)
Record Pointer := {
  isDragging : bool;
  dragStart : Q * Q;
}.

Definition setPosition (newPosition : Q * Q) (v : Viewer) : Viewer :=
  {| currentIndex := currentIndex v; zoom := zoom v; position := newPosition |}.

Section Panning.

(** The rounding of the double subtraction. *)
Context (round : Q → Q).

Definition handleMouseDown (clientX clientY : Q) (s : Viewer * Pointer) : Viewer * Pointer :=
  if zoomedIn s.1 then
    (s.1, {| isDragging := true;
             dragStart := (round (clientX - (position s.1).1),
                           round (clientY - (position s.1).2))%Q |})
  else s.

Definition handleMouseMove (clientX clientY : Q) (s : Viewer * Pointer) : Viewer * Pointer :=
  if isDragging s.2 && zoomedIn s.1 then
    (setPosition (round (clientX - (dragStart s.2).1),
                  round (clientY - (dragStart s.2).2))%Q s.1, s.2)
  else s.

Definition handleMouseUp (s : Viewer * Pointer) : Viewer * Pointer :=
  (s.1, {| isDragging := false; dragStart := dragStart s.2 |}).

(** The mouse events of the image: [onMouseLeave] has the handler of
    [onMouseUp]. *)
Inductive MouseEvent :=
  | MouseDown (clientX clientY : Q)
  | MouseMove (clientX clientY : Q)
  | MouseUp
  | MouseLeave.


Definition onMouse (s : Viewer * Pointer) (e : MouseEvent) : Viewer * Pointer :=
  match e with
  | MouseDown x y => handleMouseDown x y s
  | MouseMove x y => handleMouseMove x y s
  | MouseUp | MouseLeave => handleMouseUp s
  end.

End Panning.

(** ** UniversalChartViewer: preloading *)

(** [img.dataUrl && !newPreloaded.has(img.id)], then
    [newPreloaded.set(img.id, img.dataUrl)], for [img = images[i]]; reading
    a property of [undefined] throws. *)
Definition preloadStep (images : list ChartImageWithContext)
    (acc : outcome (gmap string string)) (i : Z) : outcome (gmap string string) :=
  match acc with
  | Returned newPreloaded =>
      match imageAt images i with
      | Some img =>
          if truthy_string (dataUrl img)
             && negb (bool_decide (is_Some (newPreloaded !! blob_id (image img))))
          then Returned (<[blob_id (image img) := default "" (dataUrl img)]> newPreloaded)
          else Returned newPreloaded
      | None => Thrown (ErrorObject "Cannot read properties of undefined")
      end
  | Thrown e => Thrown e
  end.

Definition preloadRange : Z := 2.

(** The bounds of the [for] loop. *)
Definition preloadFrom (index : Z) : Z := Z.max 0 (index - preloadRange).

Definition preloadTo (images : list ChartImageWithContext) (index : Z) : Z :=
  Z.min (len images - 1) (index + preloadRange).

(** [preloadAdjacentImages(index, images)] over the map [preloadedImages];
    the result is the map handed to [setPreloadedImages]. *)
Definition preloadAdjacentImages (index : Z) (images : list ChartImageWithContext)
    (preloadedImages : gmap string string) : outcome (gmap string string) :=
  foldl (preloadStep images) (Returned preloadedImages)
    (seqZ (preloadFrom index) (preloadTo images index - preloadFrom index + 1)).

(** ** UniversalChartViewer: the symbols of the search box *)

(** [allImages.map(img => img.tradeName).filter(Boolean)]. *)
Definition tradeNames (allImages : list ChartImageWithContext) : list string :=
  omap (λ img, if truthy_string (tradeName img) then tradeName img else None) allImages.

(** [new Set(names)] read back with [Array.from]: each name once, in the
    order of its first occurrence. *)
Definition setOf (names : list string) : list string :=
  foldl (λ (seen : list string) name,
           if bool_decide (name ∈ seen) then seen else (seen ++ [name])%list) [] names.

(** The order of [sort()] without a comparator: strings by their code
    units. *)
Definition stringLe (a b : string) : Prop := String.leb a b = true.

#[global] Instance stringLe_dec : RelDecision stringLe.
Proof. intros a b. unfold stringLe. apply _. Defined.

(** [Array.from(symbols).sort()]; the sort of the runtime is a merge sort
    here. *)
Definition uniqueSymbols (allImages : list ChartImageWithContext) : list string :=
  merge_sort stringLe (setOf (tradeNames allImages)).

Section Symbols.

Context (toLowerCase : string → string).

(** [symbol => symbol.toLowerCase().includes(symbolSearch.toLowerCase())]. *)
Definition symbolMatches (symbolSearch symbol : string) : bool :=
  includes (toLowerCase symbol) (toLowerCase symbolSearch).

Definition filteredSymbols (uniqueSymbols : list string) (symbolSearch : string)
    : list string :=
  if bool_decide (symbolSearch = "") then take 10 uniqueSymbols
  else take 10 (List.filter (symbolMatches symbolSearch) uniqueSymbols).

End Symbols.

(** ** UniversalChartViewer.loadAllImages *)


Section Loading.

(** The [FileReader]: the data URL of the bytes of an image, or an error
    thrown when the read is started. *)
Context (readAsDataURL : ChartImageWithContext → outcome string).




End Loading.

(** ** ChartImageUpload.handleFileSelect *)

(** The state of the upload component. *)
Record Upload := {
  isUploading : bool;
  uploadProgress : Z;
  dragActive : bool;
  uploadError : option string;
}.

(** [message || fallback]. *)
Definition orElse (message : option string) (fallback : string) : string :=
  if truthy_string message then default fallback message else fallback.

Section Uploading.

Context (crashes rejects : DbCall → bool).
Context (validateImageFile : File → bool)
        (compressImage : File → list Z)
        (INLINE_THRESHOLD : Z)
        (storageAtThreshold : Storage)
        (newImageId newBlobId : string)
        (now : Date).

(** The [error] field of the result of [validateImageFile]. *)
Context (validationError : File → option string).

Definition uploadStarted (u : Upload) : Upload :=
  {| isUploading := true; uploadProgress := 0; dragActive := dragActive u;
     uploadError := None |}.

(** The [finally] block, after [setError] has or has not been called. *)
Definition uploadEnded (u : Upload) (error : option string) : Upload :=
  {| isUploading := false; uploadProgress := 0; dragActive := dragActive u;
     uploadError := error |}.

(** [handleFileSelect(file)] from the state [u]; the result is the state
    when the handler has ended and the arguments of the calls of
    [onImageUploaded].  The ticks of the progress timer, which stop before
    the handler ends, are left out; [onImageUploaded] belongs to the parent
    and is taken to return. *)
Definition handleFileSelect (tradeId : string) (imageType : ImageType)
    (disabled : bool) (file : File) (u : Upload) : M (Upload * list ChartImage) :=
  if disabled then mret (u, [])
  else
    let started := uploadStarted u in
    tryCatch
      (if negb (validateImageFile file) then
         mret (uploadEnded started (Some (orElse (validationError file) "Invalid file")), [])
       else
         result ← attachChartImage crashes rejects validateImageFile compressImage
                    INLINE_THRESHOLD storageAtThreshold newImageId newBlobId now
                    tradeId imageType file true;
         match success result, chartImage result with
         | true, Some uploaded => mret (uploadEnded started None, [uploaded])
         | _, _ =>
             mret (uploadEnded started (Some (orElse (error result) "Upload failed")), [])
         end)
      (λ e, mret (uploadEnded started
                    (Some (match e with
                           | ErrorObject message => message
                           | OtherValue => "Upload failed"
                           end)), [])).

End Uploading.

(** ** Descriptors as JavaScript values *)

Section Descriptors.

(** How the inline bytes are held in the [data] property. *)
Context (dataValue : list Z → JsValue).

(** An optional property: present when the field is set. *)
Definition optionalProperty (key : string) (v : option JsValue) : list (string * JsValue) :=
  match v with
  | Some x => [(key, x)]
  | None => []
  end.

Definition storageName (s : Storage) : string :=
  match s with
  | Inline => "inline"
  | Blob => "blob"
  end.

(** The object that a [ChartImage] is at run time. *)
Definition chartImageValue (c : ChartImage) : JsValue :=
  JsObject PlainObject
    ([ ("id", JsString (ci_id c));
       ("filename", JsString (ci_filename c));
       ("mimeType", JsString (ci_mimeType c));
       ("size", JsNumber (Finite (inject_Z (ci_size c))));
       ("uploadedAt", JsObject DateObject []);
       ("storage", JsString (storageName (ci_storage c))) ]
     ++ optionalProperty "blobId" (JsString <$> ci_blobId c)
     ++ optionalProperty "compressed" (JsBoolean <$> ci_compressed c)
     ++ optionalProperty "originalSize"
          ((λ z, JsNumber (Finite (inject_Z z))) <$> ci_originalSize c)
     ++ optionalProperty "data" (dataValue <$> ci_data c))%list.

(** The object that a [TradeChartAttachments] is at run time. *)
Definition attachmentsValue (beforeEntry afterExit : option ChartImage) : JsValue :=
  JsObject PlainObject
    (optionalProperty "beforeEntry" (chartImageValue <$> beforeEntry)
     ++ optionalProperty "afterExit" (chartImageValue <$> afterExit))%list.

End Descriptors.

(** ** A sample journal *)

Definition healthy : DbCall → bool := λ _, false.

(** The gateway fails on the delete of one blob and on nothing else. *)
Definition failsOn (id : string) : DbCall → bool := λ c,
  match c with
  | DeleteChartImageBlob id' => String.eqb id' id
  | _ => false
  end.

Definition sampleBlob (id tradeId : string) (imageType : ImageType) (size : Z)
    : ChartImageBlob :=
  {| blob_id := id; blob_tradeId := tradeId; blob_imageType := imageType;
     blob_filename := "chart.png"; blob_mimeType := "image/png";
     blob_size := size; blob_data := [137; 80; 78; 71];
     blob_uploadedAt := 1700000000000; blob_compressed := false;
     blob_originalSize := None |}.

(** Three blobs; the trades of the second and the third are gone. *)
Definition sampleDb : Db :=
  {| chartImageBlobs :=
       <["b1" := sampleBlob "b1" "t1" beforeEntry 10]>
         (<["b2" := sampleBlob "b2" "t2" afterExit 20]>
            (<["b3" := sampleBlob "b3" "t3" beforeEntry 30]> ∅));
     trades := [{| trade_id := "t1"; trade_name := "INFY" |}];
     journal := [] |}.

(** The gateway cannot list the trades. *)
Definition failsOnTrades : DbCall → bool := λ c,
  match c with
  | GetAllTrades => true
  | _ => false
  end.

(** The gateway refuses to delete the blobs of a trade in one call. *)
Definition refusesTradeDeletes : DbCall → bool := λ c,
  match c with
  | DeleteTradeChartImageBlobs _ => true
  | _ => false
  end.

(** A viewer on the last sample image, zoomed in to the cap. *)
Definition zoomedViewer : Viewer :=
  {| currentIndex := 4; zoom := 5; position := (12, -7)%Q |}.

Definition sampleFile : File :=
  {| file_name := "entry.png"; file_type := "image/png"; file_bytes := [137; 80; 78; 71] |}.

Definition blobDescriptor : ChartImage :=
  {| ci_id := "c2"; ci_filename := "chart.png"; ci_mimeType := "image/png";
     ci_size := 20; ci_uploadedAt := 1700000000000; ci_storage := Blob;
     ci_blobId := Some "b2"; ci_compressed := Some false;
     ci_originalSize := None; ci_data := None |}.

Definition inlineDescriptor : ChartImage :=
  {| ci_id := "c4"; ci_filename := "small.png"; ci_mimeType := "image/png";
     ci_size := 4; ci_uploadedAt := 1700000000000; ci_storage := Inline;
     ci_blobId := None; ci_compressed := Some false;
     ci_originalSize := None; ci_data := Some [137; 80; 78; 71] |}.

Definition sampleImage (name : option string) (imageType : ImageType)
    : ChartImageWithContext :=
  {| image := sampleBlob "b" "t" imageType 10; tradeName := name;
     tradeDate := None; tradeNo := None; dataUrl := None |}.

Definition sampleImages : list ChartImageWithContext :=
  [ sampleImage (Some "INFY") beforeEntry;
    sampleImage (Some "Infosys") afterExit;
    sampleImage None beforeEntry;
    sampleImage (Some "TCS") beforeEntry;
    sampleImage (Some "infy") beforeEntry ].

Definition exactRounding : Q → Q := λ q, q.

(** A rounding that loses precision: down to the next multiple of 1/1024. *)
Definition roundToGrid : Q → Q := λ q, (Qfloor (q * 1024) # 1024)%Q.

Definition sampleAllowedTypes : list string := ["image/png"; "image/jpeg"; "image/webp"].

Definition wellFormedEntry : JsValue :=
  JsObject PlainObject
    [ ("id", JsString "c1"); ("filename", JsString "chart.png");
      ("mimeType", JsString "image/png"); ("size", JsNumber (Finite 2048));
      ("uploadedAt", JsObject DateObject []); ("storage", JsString "blob");
      ("blobId", JsString "b1") ].

(** * Properties *)

(** ** The viewer's filter *)

Section ViewerProperties.

Context (toLowerCase : string → string).

Lemma filter_filter_andb {A} (p q : A → bool) (l : list A) :
  List.filter q (List.filter p l) = List.filter (λ x, p x && q x) l.
Proof.
  induction l as [|x l IH]; simpl; [reflexivity|].
  destruct (p x); simpl; [destruct (q x)|]; by rewrite IH.
Qed.

Lemma filter_true {A} (l : list A) : List.filter (λ _, true) l = l.
Proof. induction l as [|x l IH]; simpl; by rewrite ?IH. Qed.

Lemma filter_sublist {A} (p : A → bool) (l : list A) : sublist (List.filter p l) l.
Proof.
  induction l as [|x l IH]; simpl; [constructor|].
  destruct (p x); by constructor.
Qed.

Lemma filteredImages_by_type allImages filter :
  filteredImages toLowerCase allImages filter "" = List.filter (passesType filter) allImages.
Proof.
  unfold filteredImages. simpl. destruct filter as [|t]; simpl.
  - by rewrite filter_true.
  - reflexivity.
Qed.

Lemma filteredImages_by_symbol allImages symbolSearch :
  filteredImages toLowerCase allImages FilterAll symbolSearch
  = List.filter (passesSymbol toLowerCase symbolSearch) allImages.
Proof.
  unfold filteredImages. simpl. destruct symbolSearch as [|c rest]; simpl.
  - by rewrite filter_true.
  - reflexivity.
Qed.

Lemma filteredImages_filter allImages filter symbolSearch :
  filteredImages toLowerCase allImages filter symbolSearch
  = List.filter (passesSymbol toLowerCase symbolSearch)
      (List.filter (passesType filter) allImages).
Proof.
  unfold filteredImages.
  destruct filter as [|t], symbolSearch as [|c rest]; simpl;
    by rewrite ?filter_true.
Qed.

(** C4. Filtering by type (unless the filter is "all") and then by symbol
    substring (unless the search string is empty) returns exactly the images
    that satisfy both predicates, in the order of the original list: the
    result is the original list filtered by the conjunction, it is the type
    filter followed by the symbol filter and the other way round, it is a
    sublist of the original list, and an image is in it exactly when it is
    in the result of each filter applied alone. *)
Theorem filteredImages_intersection allImages filter symbolSearch :
  let both img := passesType filter img && passesSymbol toLowerCase symbolSearch img in
  let byType := filteredImages toLowerCase allImages filter "" in
  let bySymbol := filteredImages toLowerCase allImages FilterAll symbolSearch in
  filteredImages toLowerCase allImages filter symbolSearch = List.filter both allImages
  ∧ filteredImages toLowerCase allImages filter symbolSearch
    = List.filter (passesSymbol toLowerCase symbolSearch) byType
  ∧ filteredImages toLowerCase allImages filter symbolSearch
    = List.filter (passesType filter) bySymbol
  ∧ sublist (filteredImages toLowerCase allImages filter symbolSearch) allImages
  ∧ ∀ img, img ∈ filteredImages toLowerCase allImages filter symbolSearch
           ↔ img ∈ byType ∧ img ∈ bySymbol.
Proof.
  intros both byType bySymbol. subst byType bySymbol.
  rewrite filteredImages_by_type, filteredImages_by_symbol, filteredImages_filter.
  rewrite !filter_filter_andb. split; [reflexivity|]. split; [reflexivity|].
  split; [|split].
  - apply filter_ext. intros img. apply andb_comm.
  - apply filter_sublist.
  - intros img. rewrite !list_elem_of_In, !filter_In, andb_true_iff. tauto.
Qed.

End ViewerProperties.

(** ** Zoom and navigation *)

Section ZoomAndNavigation.

Context (round : Q → Q).

Lemma run_invariant (P : Viewer → Prop) images :
  P initialViewer →
  (∀ v a, P v → P (step round images v a)) →
  ∀ actions, P (run round images actions).
Proof.
  intros Hinit Hstep actions. unfold run.
  generalize initialViewer Hinit.
  induction actions as [|a actions IH]; intros v Hv; simpl; [done|].
  apply IH, Hstep, Hv.
Qed.

Lemma resetZoom_zoomInBounds v : zoomInBounds (resetZoom v).
Proof. unfold zoomInBounds; simpl; split; lra. Qed.

Lemma handleZoomIn_zoomInBounds v :
  roundsToDouble round → zoomInBounds v → zoomInBounds (handleZoomIn round v).
Proof.
  intros (Hmono & Hhalf & _) [Hlo Hhi]. unfold zoomInBounds; simpl. split.
  - apply Q.min_glb; [|lra].
    rewrite <- Hhalf. apply Hmono. lra.
  - apply Q.le_min_r.
Qed.

Lemma handleZoomOut_zoomInBounds v :
  roundsToDouble round → zoomInBounds v → zoomInBounds (handleZoomOut round v).
Proof.
  intros (Hmono & _ & Hfive) [Hlo Hhi]. unfold zoomInBounds; simpl. split.
  - apply Q.le_max_r.
  - apply Q.max_lub; [|lra].
    rewrite <- Hfive. apply Hmono.
    unfold Qdiv. change (/ (3 # 2))%Q with (2 # 3)%Q. lra.
Qed.

Lemma step_zoomInBounds images v a :
  roundsToDouble round → zoomInBounds v → zoomInBounds (step round images v a).
Proof.
  intros Hround Hv. destruct a; simpl.
  - unfold navigateNext. case_decide; [apply resetZoom_zoomInBounds | done].
  - unfold navigatePrevious. case_decide; [apply resetZoom_zoomInBounds | done].
  - apply resetZoom_zoomInBounds.
  - by apply handleZoomIn_zoomInBounds.
  - by apply handleZoomOut_zoomInBounds.
Qed.

(** C5. The zoom level stays within [0.5, 5]: from the initial zoom of 1,
    after every sequence of zoom-in (times 1.5, capped at 5), zoom-out
    (divided by 1.5, floored at 0.5) and reset (back to 1) operations,
    also interleaved with navigation, 0.5 <= zoom <= 5.  The double
    arithmetic enters through its rounding, which is monotone and exact on
    0.5 and 5. *)
Theorem zoom_stays_in_bounds images actions :
  roundsToDouble round →
  (1 # 2 <= zoom (run round images actions))%Q ∧
  (zoom (run round images actions) <= 5)%Q.
Proof.
  intros Hround.
  apply (run_invariant zoomInBounds).
  - unfold zoomInBounds; simpl; split; lra.
  - intros v a. by apply step_zoomInBounds.
Qed.

Lemma navigateNext_indexInBounds images v :
  indexInBounds images v → indexInBounds images (navigateNext images v).
Proof.
  unfold indexInBounds, navigateNext. case_decide; simpl; lia.
Qed.

Lemma navigatePrevious_indexInBounds images v :
  indexInBounds images v → indexInBounds images (navigatePrevious images v).
Proof.
  unfold indexInBounds, navigatePrevious. case_decide; simpl; lia.
Qed.

Lemma step_indexInBounds images v a :
  indexInBounds images v → indexInBounds images (step round images v a).
Proof.
  destruct a; simpl; auto using navigateNext_indexInBounds, navigatePrevious_indexInBounds.
Qed.

(** C6. Navigating past the first or the last filtered image does nothing:
    [navigateNext] leaves the viewer as it is when the index is at or beyond
    the last image, [navigatePrevious] when the index is at or below 0, and
    over a non-empty list of filtered images every sequence of operations
    from index 0 keeps the index within [0, length - 1]. *)
Theorem navigation_is_clamped images :
  (∀ v, len images - 1 ≤ currentIndex v → navigateNext images v = v) ∧
  (∀ v, currentIndex v ≤ 0 → navigatePrevious images v = v) ∧
  (images ≠ [] → ∀ actions,
     0 ≤ currentIndex (run round images actions) ≤ len images - 1).
Proof.
  split; [|split].
  - intros v Hv. unfold navigateNext. case_decide; [lia | done].
  - intros v Hv. unfold navigatePrevious. case_decide; [lia | done].
  - intros Hne actions.
    apply (run_invariant (indexInBounds images)).
    + unfold indexInBounds, len; simpl. destruct images; [done | simpl; lia].
    + intros v a. apply step_indexInBounds.
Qed.

End ZoomAndNavigation.

(** ** validateChartAttachments *)

Section ValidationProperties.

Context (ALLOWED_TYPES : list string).

Lemma typeof_string v : String.eqb (typeof v) "string" = true ↔ isString v.
Proof.
  unfold isString. split.
  - destruct v as [| | | | | s | | |]; simpl; try discriminate. by exists s.
  - by intros [s ->].
Qed.

Lemma typeof_number v : String.eqb (typeof v) "number" = true ↔ isNumber v.
Proof.
  unfold isNumber. split.
  - destruct v as [| | | n | | | | |]; simpl; try discriminate. by exists n.
  - by intros [n ->].
Qed.

Lemma object_test v :
  truthy v && String.eqb (typeof v) "object" = true ↔ isObject v.
Proof.
  unfold isObject. split.
  - destruct v as [| | | | | | | | c ps]; simpl;
      rewrite ?andb_false_r; try discriminate. by exists c, ps.
  - by intros (c & ps & ->).
Qed.

Lemma instanceofDate_isDate v : instanceofDate v = true ↔ isDate v.
Proof.
  unfold isDate. split.
  - destruct v as [| | | | | | | | [] ps]; simpl; try discriminate. by exists ps.
  - by intros [ps ->].
Qed.

Lemma strictEquals_eq v s : strictEquals v s = true ↔ v = JsString s.
Proof.
  split.
  - destruct v; simpl; try discriminate. intros H%String.eqb_eq. by subst.
  - intros ->. simpl. apply String.eqb_refl.
Qed.

Lemma allowedTypesIncludes_spec v :
  allowedTypesIncludes ALLOWED_TYPES v = true
  ↔ ∃ mimeType, v = JsString mimeType ∧ mimeType ∈ ALLOWED_TYPES.
Proof.
  split.
  - destruct v as [| | | | | s | | |]; simpl; try discriminate.
    intros H%bool_decide_eq_true. by exists s.
  - intros (s & -> & Hs). simpl. by apply bool_decide_eq_true.
Qed.

(** The check of the code is the check of the spec. *)
Lemma validateChartImage_wellFormed v :
  validateChartImage ALLOWED_TYPES v = true ↔ wellFormedImage ALLOWED_TYPES v.
Proof.
  unfold validateChartImage, wellFormedImage.
  do 7 rewrite andb_true_iff.
  rewrite orb_true_iff, object_test, !typeof_string, typeof_number,
    instanceofDate_isDate, !strictEquals_eq, allowedTypesIncludes_spec.
  unfold isString. split.
  - tauto.
  - intros (?&?&?&?&?&?&(m&Hm&?)). assert (∃ s, get v "mimeType" = JsString s) by eauto.
    intuition eauto.
Qed.

Lemma validateChartAttachments_object class properties :
  let v := JsObject class properties in
  validateChartAttachments ALLOWED_TYPES v = true
  ↔ (truthy (get v "beforeEntry") = true → wellFormedImage ALLOWED_TYPES (get v "beforeEntry"))
    ∧ (truthy (get v "afterExit") = true → wellFormedImage ALLOWED_TYPES (get v "afterExit")).
Proof.
  intros v. rewrite <- !validateChartImage_wellFormed.
  unfold validateChartAttachments. subst v. cbn [get truthy typeof negb orb].
  change (String.eqb "object" "object") with true. cbn [negb].
  generalize (lookupProperty properties "beforeEntry") as before.
  generalize (lookupProperty properties "afterExit") as after.
  intros after before.
  destruct (truthy before), (validateChartImage ALLOWED_TYPES before),
    (truthy after), (validateChartImage ALLOWED_TYPES after);
    simpl; intuition congruence.
Qed.

(** C10. [validateChartAttachments] returns false for every input that is
    not a non-null object; for an object it returns false whenever a truthy
    [beforeEntry] or [afterExit] entry fails the per-image check; and an
    object whose two entries are absent or falsy is accepted.  For an
    object the answer is true exactly when each truthy entry passes the
    check. *)
Theorem validateChartAttachments_spec (v : JsValue) :
  (¬ isObject v → validateChartAttachments ALLOWED_TYPES v = false) ∧
  (isObject v →
     (truthy (get v "beforeEntry") = true ∧
        ¬ wellFormedImage ALLOWED_TYPES (get v "beforeEntry")) ∨
     (truthy (get v "afterExit") = true ∧
        ¬ wellFormedImage ALLOWED_TYPES (get v "afterExit")) →
     validateChartAttachments ALLOWED_TYPES v = false) ∧
  (isObject v →
     truthy (get v "beforeEntry") = false →
     truthy (get v "afterExit") = false →
     validateChartAttachments ALLOWED_TYPES v = true) ∧
  (isObject v →
     (validateChartAttachments ALLOWED_TYPES v = true
      ↔ (truthy (get v "beforeEntry") = true →
           wellFormedImage ALLOWED_TYPES (get v "beforeEntry"))
        ∧ (truthy (get v "afterExit") = true →
           wellFormedImage ALLOWED_TYPES (get v "afterExit")))).
Proof.
  split; [|split; [|split]].
  - intros Hno. unfold validateChartAttachments.
    destruct (truthy v && String.eqb (typeof v) "object") eqn:E.
    + apply object_test in E. contradiction.
    + apply andb_false_iff in E as [-> | ->]; simpl; [done|].
      by rewrite orb_true_r.
  - intros (c & ps & ->) Hbad.
    apply not_true_is_false. rewrite validateChartAttachments_object. tauto.
  - intros (c & ps & ->) Hb Ha.
    apply validateChartAttachments_object. rewrite Hb, Ha. done.
  - intros (c & ps & ->). apply validateChartAttachments_object.
Qed.

End ValidationProperties.

(** ** The service over the database *)

(** Unfolds the monad, so that a run of a method becomes a term over the
    state of the database. *)
Ltac unfold_monad :=
  unfold tryCatch, throw, gatewayRead, gatewayWrite,
    mbind, M_bind, mret, M_ret in *.

(** *** The table stays keyed by the blob id *)

Lemma keyed_empty : keyed ∅.
Proof. intros k b Hk. by rewrite lookup_empty in Hk. Qed.

Lemma keyed_insert b t : keyed t → keyed (<[blob_id b := b]> t).
Proof.
  intros Ht k b' Hk. rewrite lookup_insert in Hk. case_decide.
  - injection Hk as <-. done.
  - by apply Ht.
Qed.

Lemma keyed_delete id t : keyed t → keyed (delete id t).
Proof.
  intros Ht k b Hk. rewrite lookup_delete in Hk. case_decide; [done|]. by apply Ht.
Qed.

Lemma keyed_filter (P : string * ChartImageBlob → Prop) `{!∀ kb, Decision (P kb)} t :
  keyed t → keyed (filter P t).
Proof.
  intros Ht k b Hk. apply map_lookup_filter_Some in Hk as [Hk _]. by apply Ht.
Qed.

(** The writes of the gateway keep every row under its own id. *)
Lemma gateway_writes_keep_keyed crashes rejects db :
  keyed (chartImageBlobs db) →
  (∀ b, keyed (chartImageBlobs (saveChartImageBlob crashes rejects b db).2))
  ∧ (∀ id, keyed (chartImageBlobs (deleteChartImageBlob crashes rejects id db).2))
  ∧ (∀ tradeId,
       keyed (chartImageBlobs (deleteTradeChartImageBlobs crashes rejects tradeId db).2)).
Proof.
  intros Hdb. split; [|split].
  - intros b. unfold saveChartImageBlob, gatewayWrite.
    destruct (crashes _); [done|]. destruct (rejects _); [done|].
    by apply keyed_insert.
  - intros id. unfold deleteChartImageBlob, gatewayWrite.
    destruct (crashes _); [done|]. destruct (rejects _); [done|].
    by apply keyed_delete.
  - intros tradeId. unfold deleteTradeChartImageBlobs, gatewayWrite.
    destruct (crashes _); [done|]. destruct (rejects _); [done|].
    by apply keyed_filter.
Qed.

(** *** Orphan cleanup and statistics *)

Section CleanupProperties.

Context (crashes rejects : DbCall → bool).

Lemma cleanupLoop_run tradeIds allBlobs : ∀ cleaned0 errors0 db,
  neverCrashes crashes →
  cleanupLoop crashes rejects tradeIds allBlobs cleaned0 errors0 db
  = (Returned {| cleaned := cleaned0 + length (List.filter (removed rejects tradeIds) allBlobs);
                 errors := errors0 + length (List.filter (refused rejects tradeIds) allBlobs) |},
     {| chartImageBlobs := sweep rejects tradeIds allBlobs (chartImageBlobs db);
        trades := trades db;
        journal := journal db ++
          ((λ b, DeleteChartImageBlob (blob_id b)) <$> List.filter (orphaned tradeIds) allBlobs) |}).
Proof.
  induction allBlobs as [|b rest IH]; intros c e db Hhealthy.
  - simpl. unfold_monad. rewrite !Nat.add_0_r, app_nil_r. by destruct db.
  - unfold removed, refused, sweep in *. simpl.
    destruct (orphaned tradeIds b) eqn:Horph; simpl.
    + unfold deleteChartImageBlob. unfold_monad.
      rewrite Hhealthy.
      destruct (rejects (DeleteChartImageBlob (blob_id b))) eqn:Hrej; simpl;
        rewrite IH by done; simpl; rewrite <- app_assoc; simpl;
        repeat f_equal; try lia; unfold removed; by rewrite Horph, Hrej.
    + rewrite IH by done. unfold removed. by rewrite Horph.
Qed.

Lemma cleanupOrphanedBlobs_run db :
  neverCrashes crashes →
  let tradeIds := tradeIdSet (trades db) in
  cleanupOrphanedBlobs crashes rejects db
  = (Returned {| cleaned := length (List.filter (removed rejects tradeIds) (rowsOf db));
                 errors := length (List.filter (refused rejects tradeIds) (rowsOf db)) |},
     {| chartImageBlobs := sweep rejects tradeIds (rowsOf db) (chartImageBlobs db);
        trades := trades db;
        journal := journal db ++ [GetAllChartImageBlobs; GetAllTrades] ++
          ((λ b, DeleteChartImageBlob (blob_id b))
             <$> List.filter (orphaned tradeIds) (rowsOf db)) |}).
Proof.
  intros Hhealthy tradeIds.
  unfold cleanupOrphanedBlobs, getAllChartImageBlobs, getAllTrades. unfold_monad.
  rewrite !Hhealthy. simpl. rewrite cleanupLoop_run by done. simpl.
  fold (rowsOf db). fold tradeIds. rewrite <- !app_assoc. reflexivity.
Qed.

Lemma sweep_cons tradeIds b rest t :
  sweep rejects tradeIds (b :: rest) t
  = sweep rejects tradeIds rest (if removed rejects tradeIds b then delete (blob_id b) t else t).
Proof. reflexivity. Qed.

Lemma sweep_lookup tradeIds allBlobs : ∀ t k,
  sweep rejects tradeIds allBlobs t !! k
  = if bool_decide (k ∈ blob_id <$> List.filter (removed rejects tradeIds) allBlobs)
    then None else t !! k.
Proof.
  induction allBlobs as [|b rest IH]; intros t k; [done|].
  rewrite sweep_cons, IH. simpl.
  destruct (removed rejects tradeIds b) eqn:Hrem; simpl; [|done].
  rewrite lookup_delete.
  destruct (decide (blob_id b = k)) as [->|Hne].
  - rewrite (bool_decide_eq_true_2 (k ∈ _ :: _)) by (by left).
    by case_bool_decide.
  - erewrite (bool_decide_ext (k ∈ blob_id b :: _)); [done|].
    rewrite elem_of_cons. split; [intros [Heq|Hin]; [congruence | done] | by right].
Qed.

Lemma elem_of_rowsOf db b :
  b ∈ rowsOf db ↔ ∃ k, chartImageBlobs db !! k = Some b.
Proof.
  unfold rowsOf. rewrite list_elem_of_fmap. split.
  - intros ([k b'] & -> & Hin). exists k. by apply elem_of_map_to_list.
  - intros [k Hk]. exists (k, b). split; [done|]. by apply elem_of_map_to_list.
Qed.

Lemma elem_of_tradeIdSet allTrades id :
  id ∈ tradeIdSet allTrades ↔ ∃ trade, trade ∈ allTrades ∧ trade_id trade = id.
Proof.
  unfold tradeIdSet. rewrite elem_of_list_to_set, list_elem_of_fmap.
  split; intros (trade & H1 & H2); exists trade; done.
Qed.

(** In a keyed table a row goes exactly when the loop removes it. *)
Lemma sweep_rows db tradeIds k :
  keyed (chartImageBlobs db) →
  sweep rejects tradeIds (rowsOf db) (chartImageBlobs db) !! k
  = match chartImageBlobs db !! k with
    | Some b => if removed rejects tradeIds b then None else Some b
    | None => None
    end.
Proof.
  intros Hkeyed. rewrite sweep_lookup.
  destruct (chartImageBlobs db !! k) as [b|] eqn:Hk; [|by case_bool_decide].
  destruct (removed rejects tradeIds b) eqn:Hrem.
  - rewrite bool_decide_eq_true_2; [done|].
    apply list_elem_of_fmap. exists b. split; [symmetry; by apply Hkeyed|].
    apply list_elem_of_In, filter_In. split; [|done].
    apply list_elem_of_In, elem_of_rowsOf. by exists k.
  - rewrite bool_decide_eq_false_2; [done|].
    intros (b' & -> & Hin)%list_elem_of_fmap.
    apply list_elem_of_In, filter_In in Hin as [Hin Hrem'].
    apply list_elem_of_In, elem_of_rowsOf in Hin as [k' Hk'].
    rewrite (Hkeyed _ _ Hk') in Hk. congruence.
Qed.

Lemma cleanupOrphanedBlobs_table db :
  neverCrashes crashes → keyed (chartImageBlobs db) →
  chartImageBlobs (cleanupOrphanedBlobs crashes rejects db).2
  = filter (λ kb, removed rejects (tradeIdSet (trades db)) kb.2 = false) (chartImageBlobs db).
Proof.
  intros Hhealthy Hkeyed. rewrite cleanupOrphanedBlobs_run by done. simpl.
  apply map_eq. intros k. rewrite sweep_rows by done.
  destruct (chartImageBlobs db !! k) as [b|] eqn:Hk.
  - destruct (removed _ _ b) eqn:Hrem; symmetry.
    + apply map_lookup_filter_None. right. intros b' Hb'. simpl. congruence.
    + by apply map_lookup_filter_Some.
  - symmetry. apply map_lookup_filter_None. by left.
Qed.

Lemma removed_refused_orphaned tradeIds (allBlobs : list ChartImageBlob) :
  (length (List.filter (removed rejects tradeIds) allBlobs)
   + length (List.filter (refused rejects tradeIds) allBlobs)
   = length (List.filter (orphaned tradeIds) allBlobs))%nat.
Proof.
  induction allBlobs as [|b rest IH]; simpl; [done|].
  unfold removed, refused in *.
  destruct (orphaned tradeIds b), (rejects (DeleteChartImageBlob (blob_id b)));
    simpl; rewrite <- IH; lia.
Qed.

Lemma sumSizes_foldr (allBlobs : list ChartImageBlob) :
  sumSizes allBlobs = foldr Z.add 0 (blob_size <$> allBlobs).
Proof.
  unfold sumSizes.
  assert (∀ total, foldl (λ total b, total + blob_size b) total allBlobs
                   = total + foldr Z.add 0 (blob_size <$> allBlobs)) as Hgen.
  { induction allBlobs as [|b rest IH]; intros total; csimpl; [lia|].
    rewrite IH. lia. }
  rewrite Hgen. lia.
Qed.

(** C1. [cleanupOrphanedBlobs] deletes exactly the blob records whose
    tradeId is not among the ids of the current trades and leaves the others
    untouched: over a gateway that carries out what it is asked, the table
    afterwards is the table before restricted to the rows of current trades;
    every row of a current trade is still there, unchanged; every other row
    is gone; and the delete requests sent are those for the ids of the
    orphaned rows, one each. *)
Theorem cleanupOrphanedBlobs_removes_exactly_orphans db :
  neverCrashes crashes →
  (∀ c, rejects c = false) →
  keyed (chartImageBlobs db) →
  let tradeIds := tradeIdSet (trades db) in
  let after := (cleanupOrphanedBlobs crashes rejects db).2 in
  chartImageBlobs after
  = filter (λ kb, blob_tradeId kb.2 ∈ tradeIds) (chartImageBlobs db)
  ∧ (∀ k b, chartImageBlobs db !! k = Some b → blob_tradeId b ∈ tradeIds →
       chartImageBlobs after !! k = Some b)
  ∧ (∀ k b, chartImageBlobs db !! k = Some b → blob_tradeId b ∉ tradeIds →
       chartImageBlobs after !! k = None)
  ∧ journal after
    = (journal db ++ [GetAllChartImageBlobs; GetAllTrades] ++
       ((λ b, DeleteChartImageBlob (blob_id b))
          <$> List.filter (λ b, bool_decide (blob_tradeId b ∉ tradeIds)) (rowsOf db)))%list.
Proof.
  intros Hhealthy Hobeys Hkeyed tradeIds after.
  assert (chartImageBlobs after
          = filter (λ kb, blob_tradeId kb.2 ∈ tradeIds) (chartImageBlobs db)) as Htable.
  { subst after. rewrite cleanupOrphanedBlobs_table by done.
    apply map_filter_ext. intros k b _. simpl.
    unfold removed, orphaned. rewrite Hobeys, andb_true_r. fold tradeIds.
    case_bool_decide; split; intros; done. }
  split; [done|]. rewrite Htable. split; [|split].
  - intros k b Hk Hin. by apply map_lookup_filter_Some.
  - intros k b Hk Hnotin. apply map_lookup_filter_None. right.
    intros b' Hb'. simpl. congruence.
  - subst after. by rewrite cleanupOrphanedBlobs_run by done.
Qed.

(** C8. [cleanupOrphanedBlobs] does not stop at a deletion that fails: when
    the gateway reports [false] for an orphaned blob the [errors] count goes
    up by one and the loop goes on, so that [cleaned] counts the orphaned
    blobs whose deletion succeeded, [errors] those whose deletion failed,
    their sum is the number of orphaned blobs, and a delete request was
    sent for every orphaned blob, whatever happened to the ones before. *)
Theorem cleanupOrphanedBlobs_counts_every_orphan db :
  neverCrashes crashes →
  let tradeIds := tradeIdSet (trades db) in
  let orphans := List.filter (orphaned tradeIds) (rowsOf db) in
  let fails (b : ChartImageBlob) := rejects (DeleteChartImageBlob (blob_id b)) in
  ∃ result,
    (cleanupOrphanedBlobs crashes rejects db).1 = Returned result
    ∧ cleaned result = length (List.filter (λ b, negb (fails b)) orphans)
    ∧ errors result = length (List.filter fails orphans)
    ∧ (cleaned result + errors result = length orphans)%nat
    ∧ ∀ b, b ∈ orphans →
        DeleteChartImageBlob (blob_id b)
          ∈ journal (cleanupOrphanedBlobs crashes rejects db).2.
Proof.
  intros Hhealthy tradeIds orphans fails.
  rewrite cleanupOrphanedBlobs_run by done. fold tradeIds. simpl.
  eexists. split; [reflexivity|]. simpl. subst orphans.
  rewrite !filter_filter_andb. split; [done|]. split; [done|].
  split; [apply removed_refused_orphaned|].
  intros b Hb. apply elem_of_app. right.
  do 2 (apply elem_of_cons; right).
  apply list_elem_of_fmap. by exists b.
Qed.

(** C9. [getStorageStats] counts blob records only: [blobImages] and
    [totalImages] are the number of stored blob records, [blobSize] and
    [totalSize] the sum of their [size] fields, and [inlineImages] and
    [inlineSize] are 0.  The table is left as it is. *)
Theorem getStorageStats_counts_blobs_only db :
  crashes GetAllChartImageBlobs = false →
  let allBlobs := rowsOf db in
  (getStorageStats crashes db).1
  = Returned {| totalImages := length allBlobs;
                totalSize := foldr Z.add 0 (blob_size <$> allBlobs);
                inlineImages := 0;
                inlineSize := 0;
                blobImages := length allBlobs;
                blobSize := foldr Z.add 0 (blob_size <$> allBlobs) |}
  ∧ length allBlobs = size (chartImageBlobs db)
  ∧ chartImageBlobs (getStorageStats crashes db).2 = chartImageBlobs db.
Proof.
  intros Hhealthy allBlobs.
  unfold getStorageStats, getAllChartImageBlobs. unfold_monad.
  rewrite Hhealthy. simpl. fold (rowsOf db). fold allBlobs.
  rewrite sumSizes_foldr. split; [done|]. split; [|done].
  subst allBlobs. unfold rowsOf. by rewrite length_fmap, length_map_to_list.
Qed.

End CleanupProperties.

(** ** Attaching and deleting an image *)

Section AttachDeleteProperties.

Context (crashes rejects : DbCall → bool).
Context (validateImageFile : File → bool)
        (compressImage : File → list Z)
        (INLINE_THRESHOLD : Z)
        (storageAtThreshold : Storage)
        (newImageId newBlobId : string)
        (now : Date).

Lemma truthy_string_Some id : id ≠ "" → truthy_string (Some id) = true.
Proof. by destruct id. Qed.

Lemma usesBlob_blob chartImage id :
  ci_storage chartImage = Blob → ci_blobId chartImage = Some id → id ≠ "" →
  usesBlob chartImage = true.
Proof.
  intros Hs Hb Hid. unfold usesBlob. rewrite Hs, Hb, truthy_string_Some by done.
  by rewrite bool_decide_eq_true_2.
Qed.

Lemma usesBlob_inline chartImage :
  ci_storage chartImage = Inline → usesBlob chartImage = false.
Proof. intros Hs. unfold usesBlob. rewrite Hs. by rewrite bool_decide_eq_false_2. Qed.

(** What [deleteChartImage] does for a descriptor with a blob. *)
Lemma deleteChartImage_run tradeId imageType chartImage db :
  usesBlob chartImage = true →
  let call := DeleteChartImageBlob (default "" (ci_blobId chartImage)) in
  deleteChartImage crashes rejects tradeId imageType chartImage db
  = if crashes call then (Returned false, logged call db)
    else if rejects call then (Returned true, logged call db)
    else (Returned true,
          logged call (with_blobs (delete (default "" (ci_blobId chartImage))
                                     (chartImageBlobs db)) db)).
Proof.
  intros Huses call. unfold deleteChartImage, deleteChartImageBlob. rewrite Huses.
  unfold_monad. fold call. by destruct (crashes call), (rejects call).
Qed.

Lemma deleteChartImage_returns tradeId imageType chartImage db :
  ∃ success,
    (deleteChartImage crashes rejects tradeId imageType chartImage db).1 = Returned success.
Proof.
  destruct (usesBlob chartImage) eqn:Huses.
  - rewrite deleteChartImage_run by done.
    simpl. destruct (crashes (DeleteChartImageBlob _)); [by eexists|].
    destruct (rejects (DeleteChartImageBlob _)); by eexists.
  - unfold deleteChartImage. rewrite Huses. by eexists.
Qed.

(** C3. For a descriptor with storage "blob" and a blobId (a non-empty
    string), [deleteChartImage] sends one request to the blob store, the
    delete of the record with that id, and the record is gone once the
    store has carried it out; for a descriptor with storage "inline" it
    sends nothing and the store, journal included, is as before. *)
Theorem deleteChartImage_blob_store tradeId imageType chartImage db :
  let after := (deleteChartImage crashes rejects tradeId imageType chartImage db).2 in
  (∀ id, ci_storage chartImage = Blob → ci_blobId chartImage = Some id → id ≠ "" →
     journal after = (journal db ++ [DeleteChartImageBlob id])%list
     ∧ (crashes (DeleteChartImageBlob id) = false →
        rejects (DeleteChartImageBlob id) = false →
        chartImageBlobs after = delete id (chartImageBlobs db)
        ∧ chartImageBlobs after !! id = None))
  ∧ (ci_storage chartImage = Inline →
     deleteChartImage crashes rejects tradeId imageType chartImage db
     = (Returned true, db)).
Proof.
  intros after. subst after. split.
  - intros id Hs Hb Hid.
    rewrite deleteChartImage_run by eauto using usesBlob_blob.
    rewrite Hb. simpl. split.
    + by destruct (crashes (DeleteChartImageBlob id)), (rejects (DeleteChartImageBlob id)).
    + intros -> ->. simpl. split; [done|]. apply lookup_delete_eq.
  - intros Hs. unfold deleteChartImage. by rewrite usesBlob_inline.
Qed.

(** C7. A persistence delete that reports failure does not fail the
    operation: when the gateway returns [false], [deleteChartImage] and
    [deleteTradeChartImages] still return [true].  The caller,
    [handleDelete], calls [onImageDeleted], which clears the in-memory
    slot, exactly when [deleteChartImage] returned [true], and reports an
    error otherwise. *)
Theorem delete_failure_is_soft tradeId imageType chartImage db :
  (usesBlob chartImage = true →
   crashes (DeleteChartImageBlob (default "" (ci_blobId chartImage))) = false →
   rejects (DeleteChartImageBlob (default "" (ci_blobId chartImage))) = true →
   (deleteChartImage crashes rejects tradeId imageType chartImage db).1 = Returned true)
  ∧ (crashes (DeleteTradeChartImageBlobs tradeId) = false →
     rejects (DeleteTradeChartImageBlobs tradeId) = true →
     (deleteTradeChartImages crashes rejects tradeId db).1 = Returned true)
  ∧ ∃ success events,
      (deleteChartImage crashes rejects tradeId imageType chartImage db).1
        = Returned success
      ∧ (handleDelete crashes rejects tradeId imageType (Some chartImage) false db).1
        = Returned events
      ∧ (OnImageDeleted ∈ events ↔ success = true)
      ∧ (slotAfter (Some chartImage) events = None ↔ success = true).
Proof.
  split; [|split].
  - intros Huses Hc Hr. rewrite deleteChartImage_run by done. by rewrite Hc, Hr.
  - intros Hc Hr. unfold deleteTradeChartImages, deleteTradeChartImageBlobs.
    unfold_monad. by rewrite Hc, Hr.
  - destruct (deleteChartImage_returns tradeId imageType chartImage db) as [success Hret].
    exists success.
    exists (if success then [OnImageDeleted] else [SetError "Failed to delete image"]).
    split; [done|]. split.
    + unfold handleDelete. unfold_monad.
      destruct (deleteChartImage _ _ _ _ _ _) as [[ok|e] db']; simpl in *; [|done].
      injection Hret as ->. by destruct success.
    + unfold slotAfter. destruct success.
      * rewrite bool_decide_eq_true_2 by apply list_elem_of_here.
        split; (split; [done | intros _]); [apply list_elem_of_here | done].
      * assert (OnImageDeleted ∉ [SetError "Failed to delete image"]) as Hnot.
        { intros Hin%list_elem_of_singleton. discriminate. }
        rewrite bool_decide_eq_false_2 by done.
        split; (split; [|discriminate]); [done | discriminate].
Qed.

Context (getImageDataUrl : ChartImage → string).

Local Abbreviation createChartImage' :=
  (createChartImage validateImageFile compressImage INLINE_THRESHOLD
     storageAtThreshold newImageId newBlobId now).
Local Abbreviation attachChartImage' :=
  (attachChartImage crashes rejects validateImageFile compressImage INLINE_THRESHOLD
     storageAtThreshold newImageId newBlobId now).

Lemma chooseStorage_under size :
  size < INLINE_THRESHOLD → chooseStorage INLINE_THRESHOLD storageAtThreshold size = Inline.
Proof. intros H. unfold chooseStorage. by rewrite decide_True. Qed.

Lemma chooseStorage_above size :
  INLINE_THRESHOLD < size → chooseStorage INLINE_THRESHOLD storageAtThreshold size = Blob.
Proof.
  intros H. unfold chooseStorage.
  rewrite decide_False by lia. by rewrite decide_True.
Qed.

(** A valid file gets a descriptor, and the database is not involved. *)
Lemma createChartImage_valid file shouldCompress db :
  validateImageFile file = true →
  ∃ created,
    createChartImage' file shouldCompress db = (Returned created, db)
    ∧ ci_storage created
      = chooseStorage INLINE_THRESHOLD storageAtThreshold
          (payloadSize compressImage file shouldCompress)
    ∧ ci_blobId created = (if ci_storage created is Blob then Some newBlobId else None).
Proof.
  intros Hvalid. unfold createChartImage. rewrite Hvalid. by eexists.
Qed.

(** What [attachChartImage] does once [createChartImage] has returned. *)
Lemma attachChartImage_run tradeId imageType file shouldCompress db created :
  createChartImage' file shouldCompress db = (Returned created, db) →
  attachChartImage' tradeId imageType file shouldCompress db
  = if usesBlob created then
      let imageBlob := imageBlobOf tradeId imageType file created in
      let call := SaveChartImageBlob imageBlob in
      if crashes call then
        (Returned {| success := false; chartImage := None;
                     error := Some "database error" |},
         logged call db)
      else if rejects call then
        (Returned {| success := false; chartImage := None;
                     error := Some "Failed to save image blob to database" |},
         logged call db)
      else
        (Returned {| success := true; chartImage := Some created; error := None |},
         logged call (with_blobs (<[blob_id imageBlob := imageBlob]> (chartImageBlobs db)) db))
    else (Returned {| success := true; chartImage := Some created; error := None |}, db).
Proof.
  intros Hcreated. unfold attachChartImage, saveChartImageBlob. unfold_monad.
  rewrite Hcreated. destruct (usesBlob created); [|done]. cbv zeta.
  set (call := SaveChartImageBlob _).
  destruct (crashes call); [done|]. by destruct (rejects call).
Qed.

(** C2. For a valid image file [attachChartImage] returns a descriptor
    with storage "inline" when the payload, compressed or not, is under the
    size threshold, and without touching the database.  Above the threshold
    the descriptor has storage "blob": the call succeeds exactly when the
    blob is saved, a successful result carries a blobId under which the
    store holds the record just saved, which [getChartImageDataUrl]
    resolves, and when the save fails the result is a failure without a
    descriptor.  The ids that [generateId] draws are non-empty. *)
Theorem attachChartImage_inline_or_blob tradeId imageType file shouldCompress db :
  validateImageFile file = true →
  newBlobId ≠ "" →
  let size := payloadSize compressImage file shouldCompress in
  let run := attachChartImage' tradeId imageType file shouldCompress db in
  ∃ result,
    run.1 = Returned result
    ∧ (size < INLINE_THRESHOLD →
         success result = true
         ∧ (∃ created, chartImage result = Some created ∧ ci_storage created = Inline)
         ∧ run.2 = db)
    ∧ (INLINE_THRESHOLD < size →
         ∃ imageBlob,
           blob_id imageBlob = newBlobId
           ∧ blob_tradeId imageBlob = tradeId
           ∧ blob_imageType imageBlob = imageType
           ∧ blob_data imageBlob = file_bytes file
           ∧ (success result = true
              ↔ crashes (SaveChartImageBlob imageBlob) = false
                ∧ rejects (SaveChartImageBlob imageBlob) = false)
           ∧ (success result = true →
                ∃ created,
                  chartImage result = Some created
                  ∧ ci_storage created = Blob
                  ∧ ci_blobId created = Some newBlobId
                  ∧ chartImageBlobs run.2 !! newBlobId = Some imageBlob
                  ∧ (crashes (GetChartImageBlob newBlobId) = false →
                     (getChartImageDataUrl crashes getImageDataUrl created run.2).1
                     = Returned (Some (ObjectUrl (file_bytes file)))))
           ∧ (success result = false →
                chartImage result = None
                ∧ is_Some (error result)
                ∧ chartImageBlobs run.2 = chartImageBlobs db)).
Proof.
  intros Hvalid Hid size run.
  destruct (createChartImage_valid file shouldCompress db Hvalid)
    as (created & Hcreated & Hstorage & HblobId).
  fold size in Hstorage. subst run.
  rewrite (attachChartImage_run _ _ _ _ _ _ Hcreated).
  destruct (decide (size < INLINE_THRESHOLD)) as [Hunder|Hnotunder].
  - rewrite chooseStorage_under in Hstorage by done.
    rewrite usesBlob_inline by done.
    eexists. split; [reflexivity|]. simpl. split; [|intros; lia].
    intros _. split; [done|]. split; [by exists created | done].
  - destruct (decide (INLINE_THRESHOLD < size)) as [Habove|Hnotabove].
    + rewrite chooseStorage_above in Hstorage by done.
      rewrite Hstorage in HblobId.
      rewrite (usesBlob_blob created newBlobId) by done.
      set (imageBlob := imageBlobOf tradeId imageType file created).
      assert (blob_id imageBlob = newBlobId) as Hkey.
      { unfold imageBlob, imageBlobOf. simpl. by rewrite HblobId. }
      cbv zeta.
      destruct (crashes (SaveChartImageBlob imageBlob)) eqn:Hc;
        [|destruct (rejects (SaveChartImageBlob imageBlob)) eqn:Hr];
        (eexists; split; [reflexivity|]; simpl; split; [intros; lia|]);
        intros _; exists imageBlob; rewrite ?Hc, ?Hr;
        (split; [done|]); (split; [done|]); (split; [done|]); (split; [done|]).
      * split; [split; [done | intros [? _]; done]|]. split; [done|].
        intros _. split; [done|]. split; [by eexists | done].
      * split; [split; [done | intros [_ ?]; done]|]. split; [done|].
        intros _. split; [done|]. split; [by eexists | done].
      * split; [done|]. split; [|done].
        intros _. exists created. split; [done|]. split; [done|]. split; [done|].
        rewrite HblobId. simpl. split; [apply lookup_insert_eq|].
        intros Hget. unfold getChartImageDataUrl, getChartImageBlob. unfold_monad.
        rewrite Hstorage, (usesBlob_blob created newBlobId) by done.
        rewrite bool_decide_eq_false_2 by done.
        rewrite HblobId. simpl. rewrite Hget. simpl.
        by rewrite lookup_insert_eq.
    + assert (size = INLINE_THRESHOLD) as Heq by lia.
      destruct (usesBlob created); [cbv zeta;
        set (call := SaveChartImageBlob _);
        destruct (crashes call); [|destruct (rejects call)]|];
        (eexists; split; [reflexivity|]; split; intros; lia).
Qed.

End AttachDeleteProperties.

(** * The properties at work on a sample journal *)

(** Settles a decidable proposition about concrete data by evaluation. *)
Ltac decided := apply (bool_decide_unpack _); vm_compute; exact I.

Lemma keyed_sampleDb : keyed (chartImageBlobs sampleDb).
Proof.
  apply (keyed_insert (sampleBlob "b1" "t1" beforeEntry 10)),
        (keyed_insert (sampleBlob "b2" "t2" afterExit 20)),
        (keyed_insert (sampleBlob "b3" "t3" beforeEntry 30)), keyed_empty.
Qed.

Lemma healthy_neverCrashes : neverCrashes healthy.
Proof. intros c. reflexivity. Qed.

Example cleanupOrphanedBlobs_sample :
  (cleanupOrphanedBlobs healthy healthy sampleDb).1
  = Returned {| cleaned := 2; errors := 0 |}.
Proof. vm_compute. reflexivity. Qed.

Example cleanupOrphanedBlobs_one_failure :
  (cleanupOrphanedBlobs healthy (failsOn "b2") sampleDb).1
  = Returned {| cleaned := 1; errors := 1 |}.
Proof. vm_compute. reflexivity. Qed.

(** A delete that throws ends the loop in the [catch]. *)
Example cleanupOrphanedBlobs_throw :
  (cleanupOrphanedBlobs (failsOn "b2") healthy sampleDb).1
  = Returned {| cleaned := 0; errors := 1 |}.
Proof. vm_compute. reflexivity. Qed.

Lemma cleanupOrphanedBlobs_removes_exactly_orphans_witness :
  let after := (cleanupOrphanedBlobs healthy healthy sampleDb).2 in
  chartImageBlobs after !! "b1" = Some (sampleBlob "b1" "t1" beforeEntry 10)
  ∧ chartImageBlobs after !! "b2" = None
  ∧ chartImageBlobs after !! "b3" = None.
Proof.
  destruct (cleanupOrphanedBlobs_removes_exactly_orphans healthy healthy sampleDb
              healthy_neverCrashes (λ c, eq_refl) keyed_sampleDb)
    as (Htable & Hkept & Hgone & Hjournal).
  split; [|split].
  - apply Hkept; [reflexivity | decided].
  - apply (Hgone "b2" (sampleBlob "b2" "t2" afterExit 20)); [reflexivity | decided].
  - apply (Hgone "b3" (sampleBlob "b3" "t3" beforeEntry 30)); [reflexivity | decided].
Defined.

Lemma cleanupOrphanedBlobs_counts_every_orphan_witness :
  ∃ result,
    (cleanupOrphanedBlobs healthy (failsOn "b2") sampleDb).1 = Returned result
    ∧ (cleaned result + errors result = 2)%nat
    ∧ DeleteChartImageBlob "b3"
        ∈ journal (cleanupOrphanedBlobs healthy (failsOn "b2") sampleDb).2.
Proof.
  destruct (cleanupOrphanedBlobs_counts_every_orphan healthy (failsOn "b2") sampleDb
              healthy_neverCrashes)
    as (result & Hresult & _ & _ & Hsum & Hsent).
  exists result. split; [exact Hresult|]. split.
  - rewrite Hsum. vm_compute. reflexivity.
  - apply (Hsent (sampleBlob "b3" "t3" beforeEntry 30)). decided.
Defined.

Lemma getStorageStats_counts_blobs_only_witness :
  (getStorageStats healthy sampleDb).1
  = Returned {| totalImages := 3; totalSize := 60;
                inlineImages := 0; inlineSize := 0;
                blobImages := 3; blobSize := 60 |}.
Proof.
  destruct (getStorageStats_counts_blobs_only healthy sampleDb eq_refl)
    as (Hstats & _ & _).
  rewrite Hstats. vm_compute. reflexivity.
Defined.

(** When the read fails the statistics are all zero. *)
Example getStorageStats_throw :
  (getStorageStats (λ _, true) sampleDb).1
  = Returned {| totalImages := 0; totalSize := 0;
                inlineImages := 0; inlineSize := 0;
                blobImages := 0; blobSize := 0 |}.
Proof. reflexivity. Qed.

Lemma deleteChartImage_blob_store_witness :
  let after := (deleteChartImage healthy healthy "t2" afterExit blobDescriptor sampleDb).2 in
  journal after = [DeleteChartImageBlob "b2"]
  ∧ chartImageBlobs after !! "b2" = None
  ∧ deleteChartImage healthy healthy "t1" beforeEntry inlineDescriptor sampleDb
    = (Returned true, sampleDb).
Proof.
  destruct (deleteChartImage_blob_store healthy healthy "t2" afterExit blobDescriptor sampleDb)
    as [Hblob _].
  destruct (Hblob "b2" eq_refl eq_refl ltac:(discriminate)) as [Hjournal Hdone].
  destruct (Hdone eq_refl eq_refl) as [_ Hgone].
  destruct (deleteChartImage_blob_store healthy healthy "t1" beforeEntry inlineDescriptor sampleDb)
    as [_ Hinline].
  split; [exact Hjournal|]. split; [exact Hgone|]. exact (Hinline eq_refl).
Defined.

(** A blob descriptor whose blobId is the empty string sends nothing. *)
Example deleteChartImage_empty_blobId :
  deleteChartImage healthy healthy "t2" afterExit
    {| ci_id := "c"; ci_filename := "f"; ci_mimeType := "image/png"; ci_size := 1;
       ci_uploadedAt := 0; ci_storage := Blob; ci_blobId := Some "";
       ci_compressed := None; ci_originalSize := None; ci_data := None |} sampleDb
  = (Returned true, sampleDb).
Proof. reflexivity. Qed.

Lemma delete_failure_is_soft_witness :
  (deleteChartImage healthy (failsOn "b2") "t2" afterExit blobDescriptor sampleDb).1
  = Returned true
  ∧ (deleteTradeChartImages healthy (λ _, true) "t2" sampleDb).1 = Returned true
  ∧ (handleDelete healthy (failsOn "b2") "t2" afterExit (Some blobDescriptor) false sampleDb).1
    = Returned [OnImageDeleted].
Proof.
  destruct (delete_failure_is_soft healthy (failsOn "b2") "t2" afterExit blobDescriptor sampleDb)
    as (Hsoft & _ & _).
  destruct (delete_failure_is_soft healthy (λ _, true) "t2" afterExit blobDescriptor sampleDb)
    as (_ & Htrade & _).
  split; [exact (Hsoft eq_refl eq_refl eq_refl)|].
  split; [exact (Htrade eq_refl eq_refl)|].
  reflexivity.
Defined.

(** When the delete throws, [deleteChartImage] returns [false] and the
    handler reports the error instead of clearing the slot. *)
Example handleDelete_throw :
  (handleDelete (failsOn "b2") healthy "t2" afterExit (Some blobDescriptor) false sampleDb).1
  = Returned [SetError "Failed to delete image"]
  ∧ slotAfter (Some blobDescriptor) [SetError "Failed to delete image"]
    = Some blobDescriptor.
Proof. split; reflexivity. Qed.

Lemma attachChartImage_inline_or_blob_witness :
  ∃ result,
    (attachChartImage healthy healthy (λ _, true) file_bytes 3 Inline "c9" "b9" 0
       "t1" afterExit sampleFile false sampleDb).1 = Returned result
    ∧ success result = true
    ∧ ∃ created, chartImage result = Some created ∧ ci_storage created = Blob
                 ∧ ci_blobId created = Some "b9".
Proof.
  destruct (attachChartImage_inline_or_blob healthy healthy (λ _, true) file_bytes 3 Inline
              "c9" "b9" 0 (λ _, "data:") "t1" afterExit sampleFile false sampleDb
              eq_refl ltac:(discriminate))
    as (result & Hresult & _ & Habove).
  destruct (Habove eq_refl) as (imageBlob & _ & _ & _ & _ & Hsaved & Hok & _).
  assert (success result = true) as Hsuccess by (apply Hsaved; split; reflexivity).
  destruct (Hok Hsuccess) as (created & Hcreated & Hstorage & HblobId & _).
  exists result. split; [exact Hresult|]. split; [exact Hsuccess|].
  exists created. split; [exact Hcreated|]. split; [exact Hstorage | exact HblobId].
Defined.

Example attachChartImage_small_file :
  (attachChartImage healthy healthy (λ _, true) file_bytes 5 Blob "c9" "b9" 0
     "t1" afterExit sampleFile false sampleDb)
  = (Returned {| success := true;
                 chartImage := Some
                   {| ci_id := "c9"; ci_filename := "entry.png";
                      ci_mimeType := "image/png"; ci_size := 4;
                      ci_uploadedAt := 0; ci_storage := Inline; ci_blobId := None;
                      ci_compressed := Some false; ci_originalSize := Some 4;
                      ci_data := Some [137; 80; 78; 71] |};
                 error := None |},
     sampleDb).
Proof. reflexivity. Qed.

Example attachChartImage_save_refused :
  (attachChartImage healthy (λ _, true) (λ _, true) file_bytes 3 Inline "c9" "b9" 0
     "t1" afterExit sampleFile false sampleDb).1
  = Returned {| success := false; chartImage := None;
                error := Some "Failed to save image blob to database" |}.
Proof. reflexivity. Qed.

Example attachChartImage_invalid_file :
  (attachChartImage healthy healthy (λ _, false) file_bytes 3 Inline "c9" "b9" 0
     "t1" afterExit sampleFile false sampleDb)
  = (Returned {| success := false; chartImage := None;
                 error := Some "Invalid image file" |}, sampleDb).
Proof. reflexivity. Qed.

Example filteredImages_sample :
  filteredImages asciiToLowerCase sampleImages (FilterOnly beforeEntry) "inf"
  = [ sampleImage (Some "INFY") beforeEntry; sampleImage (Some "infy") beforeEntry ].
Proof. vm_compute. reflexivity. Qed.

Example filteredImages_no_filter :
  filteredImages asciiToLowerCase sampleImages FilterAll "" = sampleImages.
Proof. reflexivity. Qed.

Lemma exactRounding_roundsToDouble : roundsToDouble exactRounding.
Proof.
  split; [intros x y Hxy; exact Hxy | split; reflexivity].
Qed.

Lemma roundToGrid_roundsToDouble : roundsToDouble roundToGrid.
Proof.
  split; [|split; reflexivity].
  intros x y Hxy. unfold roundToGrid, Qle. cbn [Qnum Qden].
  apply Z.mul_le_mono_nonneg_r; [lia|].
  apply Qfloor_resp_le. lra.
Qed.

(** With the lossy rounding the steps land on the grid, and the cap is
    reached all the same. *)
Example zoom_on_grid :
  (zoom (run roundToGrid sampleImages [ZoomOut; ZoomIn; ZoomIn; ZoomIn; ZoomIn])
   == 3451 # 1024)%Q
  ∧ (zoom (run roundToGrid sampleImages [ZoomIn; ZoomIn; ZoomIn; ZoomIn; ZoomIn]) == 5)%Q.
Proof. split; vm_compute; reflexivity. Qed.

Lemma zoom_stays_in_bounds_witness :
  (1 # 2 <= zoom (run roundToGrid sampleImages
                    [ZoomIn; ZoomIn; ZoomIn; ZoomIn; ZoomIn; NavigateNext; ZoomOut; ZoomOut]))%Q
  ∧ (zoom (run roundToGrid sampleImages
             [ZoomIn; ZoomIn; ZoomIn; ZoomIn; ZoomIn; NavigateNext; ZoomOut; ZoomOut]) <= 5)%Q.
Proof.
  exact (zoom_stays_in_bounds roundToGrid sampleImages
           [ZoomIn; ZoomIn; ZoomIn; ZoomIn; ZoomIn; NavigateNext; ZoomOut; ZoomOut]
           roundToGrid_roundsToDouble).
Defined.

(** Four zoom-in steps reach the cap, two zoom-out steps the floor. *)
Example zoom_reaches_cap :
  (zoom (run exactRounding sampleImages [ZoomIn; ZoomIn; ZoomIn; ZoomIn]) == 5)%Q
  ∧ (zoom (run exactRounding sampleImages [ZoomIn; ZoomIn; ZoomIn]) == 27 # 8)%Q
  ∧ (zoom (run exactRounding sampleImages [ZoomOut; ZoomOut]) == 1 # 2)%Q.
Proof. repeat split. Qed.

Lemma navigation_is_clamped_witness :
  currentIndex (run exactRounding sampleImages
                  [NavigatePrevious; NavigateNext; NavigateNext; NavigateNext;
                   NavigateNext; NavigateNext; NavigateNext]) ≤ 4
  ∧ navigatePrevious sampleImages initialViewer = initialViewer.
Proof.
  destruct (navigation_is_clamped exactRounding sampleImages) as (_ & Hprev & Hrun).
  split.
  - apply (Hrun ltac:(discriminate)).
  - apply Hprev. reflexivity.
Defined.

Example navigation_sample :
  currentIndex (run exactRounding sampleImages
                  [NavigatePrevious; NavigateNext; NavigateNext; NavigateNext;
                   NavigateNext; NavigateNext; NavigateNext]) = 4.
Proof. reflexivity. Qed.

Lemma validateChartAttachments_spec_witness :
  validateChartAttachments sampleAllowedTypes
    (JsObject PlainObject [("beforeEntry", JsString "chart.png")]) = false
  ∧ validateChartAttachments sampleAllowedTypes
      (JsObject PlainObject [("beforeEntry", JsNull); ("afterExit", JsString "")]) = true
  ∧ validateChartAttachments sampleAllowedTypes (JsNumber (Finite 1)) = false.
Proof.
  split; [|split].
  - destruct (validateChartAttachments_spec sampleAllowedTypes
                (JsObject PlainObject [("beforeEntry", JsString "chart.png")]))
      as (_ & Hrejects & _).
    apply Hrejects; [by eexists _, _|].
    left. split; [reflexivity|]. intros ((c & ps & Hobject) & _). discriminate.
  - destruct (validateChartAttachments_spec sampleAllowedTypes
                (JsObject PlainObject [("beforeEntry", JsNull); ("afterExit", JsString "")]))
      as (_ & _ & Haccepts & _).
    apply Haccepts; [by eexists _, _ | reflexivity | reflexivity].
  - destruct (validateChartAttachments_spec sampleAllowedTypes (JsNumber (Finite 1)))
      as (Hprimitive & _).
    apply Hprimitive. intros (c & ps & Hobject). discriminate.
Defined.

Example validateChartAttachments_samples :
  validateChartAttachments sampleAllowedTypes (JsObject PlainObject []) = true
  ∧ validateChartAttachments sampleAllowedTypes
      (JsObject PlainObject [("beforeEntry", wellFormedEntry)]) = true
  ∧ validateChartAttachments sampleAllowedTypes
      (JsObject PlainObject [("beforeEntry", wellFormedEntry); ("afterExit", JsNumber (Finite 0))])
    = true
  ∧ validateChartAttachments sampleAllowedTypes
      (JsObject PlainObject
         [("afterExit", JsObject PlainObject
             [ ("id", JsString "c1"); ("filename", JsString "chart.gif");
               ("mimeType", JsString "image/gif"); ("size", JsNumber (Finite 2048));
               ("uploadedAt", JsObject DateObject []); ("storage", JsString "blob") ])])
    = false
  ∧ validateChartAttachments sampleAllowedTypes JsNull = false
  ∧ validateChartAttachments sampleAllowedTypes JsUndefined = false
  ∧ validateChartAttachments sampleAllowedTypes (JsString "{}") = false
  ∧ validateChartAttachments sampleAllowedTypes (JsFunction [("beforeEntry", JsNull)]) = false
  ∧ validateChartAttachments sampleAllowedTypes (JsObject ArrayObject []) = true.
Proof. repeat (apply conj); reflexivity. Qed.

(** * Further properties of the service *)

Section ServiceExtras.

Context (crashes rejects : DbCall → bool).
Context (validateImageFile : File → bool)
        (compressImage : File → list Z)
        (INLINE_THRESHOLD : Z)
        (storageAtThreshold : Storage)
        (newImageId newBlobId : string)
        (now : Date)
        (getImageDataUrl : ChartImage → string).

Local Abbreviation attach :=
  (attachChartImage crashes rejects validateImageFile compressImage INLINE_THRESHOLD
     storageAtThreshold newImageId newBlobId now).

(** The loop leaves the trades alone. *)
Lemma cleanupLoop_trades tradeIds allBlobs : ∀ cleaned0 errors0 db,
  trades (cleanupLoop crashes rejects tradeIds allBlobs cleaned0 errors0 db).2 = trades db.
Proof.
  induction allBlobs as [|blob rest IH]; intros c e db; [done|].
  cbn [cleanupLoop]. destruct (orphaned tradeIds blob); [|by apply IH].
  unfold deleteChartImageBlob. unfold_monad.
  destruct (crashes (DeleteChartImageBlob (blob_id blob))); [done|].
  destruct (rejects (DeleteChartImageBlob (blob_id blob))); by rewrite IH.
Qed.

(** The loop leaves alone every row that no orphaned row shares the id of,
    whatever the gateway answers. *)
Lemma cleanupLoop_keeps tradeIds allBlobs k b : ∀ cleaned0 errors0 db,
  chartImageBlobs db !! k = Some b →
  (∀ b', b' ∈ allBlobs → blob_id b' = k → orphaned tradeIds b' = false) →
  chartImageBlobs (cleanupLoop crashes rejects tradeIds allBlobs cleaned0 errors0 db).2 !! k
  = Some b.
Proof.
  induction allBlobs as [|blob rest IH]; intros c e db Hk Hsafe; [done|].
  assert (∀ b', b' ∈ rest → blob_id b' = k → orphaned tradeIds b' = false) as Hrest.
  { intros b' Hin. apply Hsafe. by right. }
  cbn [cleanupLoop].
  destruct (orphaned tradeIds blob) eqn:Horph; [|by apply IH].
  assert (blob_id blob ≠ k) as Hne.
  { intros Heq. rewrite (Hsafe blob) in Horph by (done || by left). discriminate. }
  unfold deleteChartImageBlob. unfold_monad.
  destruct (crashes (DeleteChartImageBlob (blob_id blob))); [done|].
  destruct (rejects (DeleteChartImageBlob (blob_id blob))).
  - by apply IH.
  - apply IH; [|done]. simpl. by rewrite lookup_delete_ne.
Qed.

(** X1. Whatever the gateway does (carry out, refuse or throw, at any
    call), [cleanupOrphanedBlobs] returns a result, leaves the trades as
    they are, and leaves every blob record of a current trade in the table,
    unchanged. *)
Theorem cleanupOrphanedBlobs_never_harms_current_trades db :
  keyed (chartImageBlobs db) →
  (∃ result, (cleanupOrphanedBlobs crashes rejects db).1 = Returned result)
  ∧ trades (cleanupOrphanedBlobs crashes rejects db).2 = trades db
  ∧ ∀ k b, chartImageBlobs db !! k = Some b →
           blob_tradeId b ∈ tradeIdSet (trades db) →
           chartImageBlobs (cleanupOrphanedBlobs crashes rejects db).2 !! k = Some b.
Proof.
  intros Hkeyed.
  unfold cleanupOrphanedBlobs, getAllChartImageBlobs, getAllTrades. unfold_monad.
  destruct (crashes GetAllChartImageBlobs); [by split; [eexists|]|].
  destruct (crashes GetAllTrades); [by split; [eexists|]|].
  simpl. fold (rowsOf db).
  set (db0 := logged GetAllTrades (logged GetAllChartImageBlobs db)).
  set (tradeIds := tradeIdSet (trades db)).
  pose proof (cleanupLoop_trades tradeIds (rowsOf db) 0 0 db0) as Htrades.
  assert (∀ k b, chartImageBlobs db !! k = Some b → blob_tradeId b ∈ tradeIds →
            chartImageBlobs (cleanupLoop crashes rejects tradeIds (rowsOf db) 0 0 db0).2 !! k
            = Some b) as Hloop.
  { intros k b Hk Hin. apply cleanupLoop_keeps; [done|].
    intros b' [k' Hk']%elem_of_rowsOf Hid.
    rewrite (Hkeyed _ _ Hk') in Hid. subst k'.
    assert (b' = b) as -> by congruence.
    unfold orphaned. rewrite bool_decide_eq_false_2; [done|]. intros Hnot. by apply Hnot. }
  destruct (cleanupLoop crashes rejects tradeIds (rowsOf db) 0 0 db0) as [[r|e] db'];
    simpl in *; (split; [by eexists|]); (split; [done|]); done.
Qed.

Lemma filter_none {A} (p : A → bool) (l : list A) :
  (∀ x, x ∈ l → p x = false) → List.filter p l = [].
Proof.
  induction l as [|x l IH]; intros Hall; [done|]. simpl.
  rewrite (Hall x) by by left. apply IH. intros y Hy. apply Hall. by right.
Qed.

Lemma sweep_none tradeIds allBlobs t :
  (∀ b, b ∈ allBlobs → removed rejects tradeIds b = false) →
  sweep rejects tradeIds allBlobs t = t.
Proof.
  revert t. induction allBlobs as [|b rest IH]; intros t Hall; [done|].
  rewrite sweep_cons, (Hall b) by by left. apply IH. intros b' Hb'. apply Hall. by right.
Qed.

(** X2. Over a gateway that carries out what it is asked, a second
    [cleanupOrphanedBlobs] right after the first finds nothing to do: it
    reports no blob cleaned and no error, and leaves the table as the first
    run left it. *)
Theorem cleanupOrphanedBlobs_idempotent db :
  neverCrashes crashes →
  (∀ c, rejects c = false) →
  keyed (chartImageBlobs db) →
  let once := (cleanupOrphanedBlobs crashes rejects db).2 in
  (cleanupOrphanedBlobs crashes rejects once).1 = Returned {| cleaned := 0; errors := 0 |}
  ∧ chartImageBlobs (cleanupOrphanedBlobs crashes rejects once).2 = chartImageBlobs once.
Proof.
  intros Hhealthy Hobeys Hkeyed once.
  assert (trades once = trades db) as Htrades.
  { subst once. by rewrite cleanupOrphanedBlobs_run by done. }
  assert (∀ b, b ∈ rowsOf once → removed rejects (tradeIdSet (trades once)) b = false)
    as Hnone.
  { intros b [k Hk]%elem_of_rowsOf. subst once.
    rewrite cleanupOrphanedBlobs_table in Hk by done.
    apply map_lookup_filter_Some in Hk as [_ Hb]. simpl in Hb. by rewrite Htrades. }
  rewrite cleanupOrphanedBlobs_run by done. simpl.
  rewrite sweep_none by done. rewrite (filter_none (removed _ _)) by done.
  rewrite (filter_none (refused _ _)); [done|].
  intros b Hb. unfold refused. by rewrite Hobeys, andb_false_r.
Qed.

(** X3. When one of the two reads at the start throws, the cleanup stops in
    its [catch]: it reports no blob cleaned and one error, has sent no
    delete request, and the table is as before. *)
Theorem cleanupOrphanedBlobs_read_failure db :
  crashes GetAllChartImageBlobs = true ∨ crashes GetAllTrades = true →
  (cleanupOrphanedBlobs crashes rejects db).1 = Returned {| cleaned := 0; errors := 1 |}
  ∧ chartImageBlobs (cleanupOrphanedBlobs crashes rejects db).2 = chartImageBlobs db
  ∧ ∀ id, DeleteChartImageBlob id ∉ drop (length (journal db))
                                        (journal (cleanupOrphanedBlobs crashes rejects db).2).
Proof.
  intros Hfail.
  unfold cleanupOrphanedBlobs, getAllChartImageBlobs, getAllTrades. unfold_monad.
  destruct (crashes GetAllChartImageBlobs) eqn:Hblobs; simpl.
  - split; [done|]. split; [done|]. intros id.
    rewrite drop_app_length. intros Hin%list_elem_of_singleton. discriminate.
  - destruct Hfail as [?|Htrades]; [done|]. rewrite Htrades. simpl.
    split; [done|]. split; [done|]. intros id.
    rewrite <- app_assoc, drop_app_length. simpl.
    intros [Hin|Hin%list_elem_of_singleton]%elem_of_cons; discriminate.
Qed.

(** X4. [getChartImageDataUrl] never throws and never changes the table.
    For an inline descriptor it answers with the data URL without a call to
    the gateway; for a blob descriptor without a blobId (or with an empty
    one) it answers [null], again without a call; for a blob descriptor with
    a blobId it answers with an object URL of the bytes stored under that
    id, and with [null] when no record is stored there or the read throws. *)
Theorem getChartImageDataUrl_cases chartImage db :
  let run := getChartImageDataUrl crashes getImageDataUrl chartImage db in
  (∃ url, run.1 = Returned url)
  ∧ chartImageBlobs run.2 = chartImageBlobs db
  ∧ (ci_storage chartImage = Inline →
       run = (Returned (Some (DataUrl (getImageDataUrl chartImage))), db))
  ∧ (ci_storage chartImage = Blob → truthy_string (ci_blobId chartImage) = false →
       run = (Returned None, db))
  ∧ (∀ id, ci_storage chartImage = Blob → ci_blobId chartImage = Some id → id ≠ "" →
       run.1 = Returned (if crashes (GetChartImageBlob id) then None
                         else ObjectUrl ∘ blob_data <$> chartImageBlobs db !! id)).
Proof.
  intros run. subst run. unfold getChartImageDataUrl, getChartImageBlob, usesBlob.
  unfold_monad.
  destruct (ci_storage chartImage) eqn:Hstorage.
  - rewrite bool_decide_eq_true_2 by done.
    split; [by eexists|]. split; [done|]. split; [done|]. split; [done|]. done.
  - rewrite bool_decide_eq_false_2 by done. rewrite bool_decide_eq_true_2 by done.
    cbn [andb].
    destruct (truthy_string (ci_blobId chartImage)) eqn:Htruthy.
    + destruct (ci_blobId chartImage) as [id|] eqn:HblobId;
        [|simpl in Htruthy; discriminate]. cbn [default from_option Datatypes.id].
      destruct (crashes (GetChartImageBlob id)) eqn:Hcrash; simpl.
      * split; [by eexists|]. split; [done|]. split; [done|]. split; [done|].
        intros id' _ [= <-] _. by rewrite Hcrash.
      * destruct (chartImageBlobs db !! id) as [b|] eqn:Hrow; simpl;
          (split; [by eexists|]); (split; [done|]); (split; [done|]); (split; [done|]);
          intros id' _ [= <-] _; by rewrite Hcrash, Hrow.
    + split; [by eexists|]. split; [done|]. split; [done|]. split; [done|].
      intros id _ HblobId Hid. rewrite HblobId, truthy_string_Some in Htruthy by done.
      discriminate.
Qed.

(** X5. [attachChartImage] never throws, whatever the file and whatever
    the gateway does, and its result is one of two shapes: a success that
    carries the descriptor and no error, or a failure that carries an error
    message and no descriptor. *)
Theorem attachChartImage_result_shape tradeId imageType file shouldCompress db :
  ∃ result,
    (attachChartImage crashes rejects validateImageFile compressImage INLINE_THRESHOLD
       storageAtThreshold newImageId newBlobId now
       tradeId imageType file shouldCompress db).1 = Returned result
    ∧ (success result = true → is_Some (chartImage result) ∧ error result = None)
    ∧ (success result = false → chartImage result = None ∧ is_Some (error result)).
Proof.
  destruct (validateImageFile file) eqn:Hvalid.
  - destruct (createChartImage_valid validateImageFile compressImage INLINE_THRESHOLD
                storageAtThreshold newImageId newBlobId now file shouldCompress db Hvalid)
      as (created & Hcreated & _).
    rewrite (attachChartImage_run _ _ _ _ _ _ _ _ _ _ _ _ _ _ _ Hcreated).
    destruct (usesBlob created); [|by eexists]. cbv zeta.
    set (call := SaveChartImageBlob _).
    destruct (crashes call); [by eexists|]. destruct (rejects call); by eexists.
  - unfold attachChartImage, createChartImage. rewrite Hvalid. by eexists.
Qed.

(** X6. [attachChartImage] writes at most one record, the one under the
    new blobId: the trades and every record under another id are as
    before, whatever the gateway does, and after a failure the whole table
    is as before. *)
Theorem attachChartImage_frame tradeId imageType file shouldCompress db :
  let run := attach tradeId imageType file shouldCompress db in
  trades run.2 = trades db
  ∧ (∀ k, k ≠ newBlobId → chartImageBlobs run.2 !! k = chartImageBlobs db !! k)
  ∧ (∀ result, run.1 = Returned result → success result = false →
       chartImageBlobs run.2 = chartImageBlobs db).
Proof.
  intros run. subst run.
  destruct (validateImageFile file) eqn:Hvalid.
  - destruct (createChartImage_valid validateImageFile compressImage INLINE_THRESHOLD
                storageAtThreshold newImageId newBlobId now file shouldCompress db Hvalid)
      as (created & Hcreated & _ & HblobId).
    rewrite (attachChartImage_run _ _ _ _ _ _ _ _ _ _ _ _ _ _ _ Hcreated).
    destruct (usesBlob created) eqn:Huses; [|done]. cbv zeta.
    assert (blob_id (imageBlobOf tradeId imageType file created) = newBlobId) as Hkey.
    { unfold usesBlob in Huses. apply andb_true_iff in Huses as [Hs%bool_decide_eq_true _].
      rewrite Hs in HblobId. simpl. by rewrite HblobId. }
    set (call := SaveChartImageBlob _).
    destruct (crashes call); [done|]. destruct (rejects call); [done|].
    split; [done|]. split; [|by intros result [= <-]].
    intros k Hk. simpl in *. rewrite Hkey. by rewrite lookup_insert_ne.
  - unfold attachChartImage, createChartImage. rewrite Hvalid. done.
Qed.

(** What a blob attach over an obedient gateway does, in full. *)
Lemma attachChartImage_blob tradeId imageType file shouldCompress db :
  validateImageFile file = true →
  newBlobId ≠ "" →
  INLINE_THRESHOLD < payloadSize compressImage file shouldCompress →
  neverCrashes crashes →
  (∀ c, rejects c = false) →
  ∃ created b,
    attach tradeId imageType file shouldCompress db
    = (Returned {| success := true; chartImage := Some created; error := None |},
       logged (SaveChartImageBlob b)
         (with_blobs (<[newBlobId := b]> (chartImageBlobs db)) db))
    ∧ ci_storage created = Blob
    ∧ ci_blobId created = Some newBlobId
    ∧ blob_id b = newBlobId
    ∧ blob_tradeId b = tradeId
    ∧ blob_size b = payloadSize compressImage file shouldCompress.
Proof.
  intros Hvalid Hid Habove Hhealthy Hobeys.
  assert (∃ created,
            createChartImage validateImageFile compressImage INLINE_THRESHOLD
              storageAtThreshold newImageId newBlobId now file shouldCompress db
            = (Returned created, db)
            ∧ ci_storage created = Blob ∧ ci_blobId created = Some newBlobId
            ∧ ci_size created = payloadSize compressImage file shouldCompress)
    as (created & Hcreated & Hstorage & HblobId & Hsize).
  { unfold createChartImage. rewrite Hvalid, chooseStorage_above by done. by eexists. }
  rewrite (attachChartImage_run _ _ _ _ _ _ _ _ _ _ _ _ _ _ _ Hcreated).
  rewrite (usesBlob_blob created newBlobId) by done. cbv zeta.
  rewrite Hhealthy, Hobeys.
  exists created, (imageBlobOf tradeId imageType file created).
  simpl. rewrite HblobId. simpl. done.
Qed.

(** X7. Attach and delete undo each other: over a gateway that carries out
    what it is asked, for a valid file and a blobId that is not yet in
    use, deleting the descriptor that [attachChartImage] returned brings the
    table back to what it was before the attach. *)
Theorem attach_then_delete_restores_table tradeId imageType file shouldCompress db :
  validateImageFile file = true →
  newBlobId ≠ "" →
  chartImageBlobs db !! newBlobId = None →
  neverCrashes crashes →
  (∀ c, rejects c = false) →
  let attached := attach tradeId imageType file shouldCompress db in
  ∃ created,
    attached.1 = Returned {| success := true; chartImage := Some created; error := None |}
    ∧ (deleteChartImage crashes rejects tradeId imageType created attached.2).1
      = Returned true
    ∧ chartImageBlobs (deleteChartImage crashes rejects tradeId imageType created attached.2).2
      = chartImageBlobs db.
Proof.
  intros Hvalid Hid Hfresh Hhealthy Hobeys attached. subst attached.
  destruct (createChartImage_valid validateImageFile compressImage INLINE_THRESHOLD
              storageAtThreshold newImageId newBlobId now file shouldCompress db Hvalid)
    as (created & Hcreated & _ & HblobId).
  rewrite (attachChartImage_run _ _ _ _ _ _ _ _ _ _ _ _ _ _ _ Hcreated).
  exists created.
  destruct (ci_storage created) eqn:Hstorage.
  - rewrite usesBlob_inline by done. simpl.
    unfold deleteChartImage. by rewrite usesBlob_inline.
  - rewrite (usesBlob_blob created newBlobId) by done. cbv zeta.
    rewrite Hhealthy, Hobeys. cbn [fst snd]. split; [done|].
    rewrite deleteChartImage_run by eauto using usesBlob_blob.
    rewrite Hhealthy, Hobeys. simpl. rewrite HblobId. simpl.
    split; [done|]. by apply delete_insert_id.
Qed.

(** X8. The orphan cleanup decides the fate of a freshly attached blob by
    its trade alone: attached for a trade that the database lists, the
    record is still there after [cleanupOrphanedBlobs]; attached for a trade
    that the database does not list (one not saved yet, say), the record is
    swept away. *)
Theorem attach_then_cleanup tradeId imageType file shouldCompress db :
  validateImageFile file = true →
  newBlobId ≠ "" →
  INLINE_THRESHOLD < payloadSize compressImage file shouldCompress →
  neverCrashes crashes →
  (∀ c, rejects c = false) →
  keyed (chartImageBlobs db) →
  let attached := (attach tradeId imageType file shouldCompress db).2 in
  let swept := (cleanupOrphanedBlobs crashes rejects attached).2 in
  is_Some (chartImageBlobs attached !! newBlobId)
  ∧ (tradeId ∈ tradeIdSet (trades db) →
       chartImageBlobs swept !! newBlobId = chartImageBlobs attached !! newBlobId)
  ∧ (tradeId ∉ tradeIdSet (trades db) → chartImageBlobs swept !! newBlobId = None).
Proof.
  intros Hvalid Hid Habove Hhealthy Hobeys Hkeyed attached swept.
  destruct (attachChartImage_blob tradeId imageType file shouldCompress db)
    as (created & b & Hrun & _ & _ & Hkey & Htrade & _); try done.
  subst swept attached. rewrite Hrun. cbn [snd].
  set (attached := logged _ _).
  assert (chartImageBlobs attached !! newBlobId = Some b) as Hrow.
  { simpl. apply lookup_insert_eq. }
  assert (keyed (chartImageBlobs attached)) as Hkeyed'.
  { simpl. rewrite <- Hkey. by apply keyed_insert. }
  rewrite cleanupOrphanedBlobs_table by done.
  change (trades attached) with (trades db). rewrite Hrow.
  split; [by eexists|]. split.
  - intros Hlisted. apply map_lookup_filter_Some. split; [done|]. simpl.
    unfold removed, orphaned. rewrite Htrade.
    rewrite bool_decide_eq_false_2; [done|]. intros Hnot. by apply Hnot.
  - intros Hunlisted. apply map_lookup_filter_None. right.
    intros b' Hb'. simpl. assert (b' = b) as -> by congruence.
    unfold removed, orphaned. rewrite Htrade, Hobeys.
    by rewrite bool_decide_eq_true_2.
Qed.

Lemma sum_sizes_Permutation (l1 l2 : list ChartImageBlob) :
  l1 ≡ₚ l2 → foldr Z.add 0 (blob_size <$> l1) = foldr Z.add 0 (blob_size <$> l2).
Proof.
  induction 1 as [|x l1 l2 _ IH|x y l|l1 l2 l3 _ IH1 _ IH2]; csimpl; lia.
Qed.

Lemma getStorageStats_run db :
  crashes GetAllChartImageBlobs = false →
  (getStorageStats crashes db).1
  = Returned {| totalImages := size (chartImageBlobs db);
                totalSize := foldr Z.add 0 (blob_size <$> rowsOf db);
                inlineImages := 0;
                inlineSize := 0;
                blobImages := size (chartImageBlobs db);
                blobSize := foldr Z.add 0 (blob_size <$> rowsOf db) |}.
Proof.
  intros Hhealthy. unfold getStorageStats, getAllChartImageBlobs. unfold_monad.
  rewrite Hhealthy. simpl. fold (rowsOf db).
  rewrite sumSizes_foldr. unfold rowsOf at 1 3.
  by rewrite length_fmap, length_map_to_list.
Qed.

(** X9. The statistics follow an attach: over a gateway that carries out
    what it is asked, after a valid file has been attached under a blobId
    not yet in use, [getStorageStats] counts one image more and the size of
    the payload more when the image went to blob storage, and reports
    exactly what it reported before when the image was stored inline. *)
Theorem stats_after_attach tradeId imageType file shouldCompress db :
  validateImageFile file = true →
  newBlobId ≠ "" →
  chartImageBlobs db !! newBlobId = None →
  neverCrashes crashes →
  (∀ c, rejects c = false) →
  let size := payloadSize compressImage file shouldCompress in
  let attached := (attach tradeId imageType file shouldCompress db).2 in
  ∃ before after,
    (getStorageStats crashes db).1 = Returned before
    ∧ (getStorageStats crashes attached).1 = Returned after
    ∧ (size < INLINE_THRESHOLD → after = before)
    ∧ (INLINE_THRESHOLD < size →
         blobImages after = S (blobImages before)
         ∧ totalImages after = S (totalImages before)
         ∧ blobSize after = blobSize before + size
         ∧ totalSize after = totalSize before + size
         ∧ inlineImages after = 0%nat ∧ inlineSize after = 0).
Proof.
  intros Hvalid Hid Hfresh Hhealthy Hobeys size attached.
  rewrite !getStorageStats_run by done.
  eexists _, _. split; [reflexivity|]. split; [reflexivity|]. split.
  - intros Hunder. subst attached.
    destruct (createChartImage_valid validateImageFile compressImage INLINE_THRESHOLD
                storageAtThreshold newImageId newBlobId now file shouldCompress db Hvalid)
      as (created & Hcreated & Hstorage & _).
    rewrite (attachChartImage_run _ _ _ _ _ _ _ _ _ _ _ _ _ _ _ Hcreated).
    rewrite chooseStorage_under in Hstorage by done.
    by rewrite usesBlob_inline.
  - intros Habove. subst attached.
    destruct (attachChartImage_blob tradeId imageType file shouldCompress db)
      as (created & b & Hrun & _ & _ & _ & _ & Hsize); try done.
    rewrite Hrun. cbn [snd blobImages totalImages blobSize totalSize inlineImages inlineSize].
    assert (rowsOf (logged (SaveChartImageBlob b)
                      (with_blobs (<[newBlobId:=b]> (chartImageBlobs db)) db))
            ≡ₚ b :: rowsOf db) as Hrows.
    { unfold rowsOf. simpl. by rewrite map_to_list_insert by done. }
    rewrite (sum_sizes_Permutation _ _ Hrows). csimpl.
    rewrite map_size_insert_None by done. rewrite Hsize. repeat split; lia.
Qed.

(** X10. [deleteChartImage] never throws and touches nothing but the record
    named by the descriptor's blobId, whatever the gateway does: the trades
    and every record under another id are as before.  It returns [false]
    only when the gateway has thrown, and then the whole table is as
    before. *)
Theorem deleteChartImage_frame tradeId imageType chartImage db :
  let run := deleteChartImage crashes rejects tradeId imageType chartImage db in
  (∃ ok, run.1 = Returned ok)
  ∧ trades run.2 = trades db
  ∧ (∀ k, ci_blobId chartImage ≠ Some k →
       chartImageBlobs run.2 !! k = chartImageBlobs db !! k)
  ∧ (run.1 = Returned false →
       chartImageBlobs run.2 = chartImageBlobs db
       ∧ usesBlob chartImage = true
       ∧ crashes (DeleteChartImageBlob (default "" (ci_blobId chartImage))) = true).
Proof.
  intros run. subst run.
  destruct (usesBlob chartImage) eqn:Huses.
  - rewrite deleteChartImage_run by done. cbv zeta.
    set (call := DeleteChartImageBlob _).
    destruct (crashes call) eqn:Hcrash; [by split; [eexists|]|].
    destruct (rejects call); [by split; [eexists|]|].
    split; [by eexists|]. split; [done|]. split; [|done].
    intros k Hk. simpl. apply lookup_delete_ne. intros Heq. apply Hk.
    unfold usesBlob in Huses. apply andb_true_iff in Huses as [_ Htruthy].
    destruct (ci_blobId chartImage); [|done]. simpl in Heq. by subst.
  - unfold deleteChartImage. rewrite Huses.
    split; [by eexists|]. done.
Qed.

End ServiceExtras.

(** * Further properties of the viewer *)

Section ViewerExtras.

Context (round : Q → Q).

Lemma imageAt_in_bounds images i :
  0 ≤ i ≤ len images - 1 → is_Some (imageAt images i).
Proof.
  intros Hi. unfold imageAt. rewrite decide_True by lia.
  apply lookup_lt_is_Some. unfold len in Hi. lia.
Qed.

(** X11. Over a non-empty list of filtered images there is always an image
    to show: after every sequence of navigation and zoom operations from
    the initial viewer, [filteredImages[currentIndex]] is defined.  Over an
    empty list it never is, and the index stays 0. *)
Theorem currentImage_defined images actions :
  (images ≠ [] → is_Some (currentImage images (run round images actions)))
  ∧ (images = [] →
       currentImage images (run round images actions) = None
       ∧ currentIndex (run round images actions) = 0).
Proof.
  split.
  - intros Hne. apply imageAt_in_bounds.
    apply (run_invariant round (indexInBounds images)).
    + unfold indexInBounds, len; simpl. destruct images; [done | simpl; lia].
    + intros v a. apply step_indexInBounds.
  - intros ->.
    assert (currentIndex (run round [] actions) = 0) as Hzero.
    { apply (run_invariant round (λ v, currentIndex v = 0)); [done|].
      intros v a Hv. destruct a; simpl; try done.
      - unfold navigateNext, len. simpl. case_decide; [lia | done].
      - unfold navigatePrevious. case_decide; [lia | done]. }
    split; [|done]. unfold currentImage, imageAt. rewrite Hzero. done.
Qed.

(** X12. Next and previous undo each other on the index wherever both move:
    from an index that is not the last, next followed by previous comes back
    to it, and from one that is not the first, previous followed by next
    does.  Zoom and pan do not come back: every navigation step that moves
    resets the zoom to 1 and the position to the origin. *)
Theorem navigation_round_trip images v :
  (0 ≤ currentIndex v < len images - 1 →
     currentIndex (navigatePrevious images (navigateNext images v)) = currentIndex v)
  ∧ (0 < currentIndex v ≤ len images - 1 →
     currentIndex (navigateNext images (navigatePrevious images v)) = currentIndex v)
  ∧ (navigateNext images v ≠ v →
     zoom (navigateNext images v) = 1%Q ∧ position (navigateNext images v) = (0, 0)%Q)
  ∧ (navigatePrevious images v ≠ v →
     zoom (navigatePrevious images v) = 1%Q
     ∧ position (navigatePrevious images v) = (0, 0)%Q).
Proof.
  unfold navigateNext, navigatePrevious. split; [|split; [|split]].
  - intros Hv. rewrite (decide_True (P := currentIndex v < len images - 1)) by lia. simpl.
    rewrite decide_True by lia. simpl. lia.
  - intros Hv. rewrite (decide_True (P := currentIndex v > 0)) by lia. simpl.
    rewrite decide_True by lia. simpl. lia.
  - case_decide; [done|]. intros Hne. by destruct Hne.
  - case_decide; [done|]. intros Hne. by destruct Hne.
Qed.

Lemma next_steps images n : ∀ v,
  currentIndex v ≤ len images - 1 →
  currentIndex (foldl (step round images) v (replicate n NavigateNext))
  = Z.min (currentIndex v + Z.of_nat n) (len images - 1).
Proof.
  induction n as [|n IH]; intros v Hv; [simpl; lia|].
  cbn [replicate foldl step]. rewrite IH.
  - unfold navigateNext. case_decide; simpl; lia.
  - unfold navigateNext. case_decide; simpl; lia.
Qed.

Lemma previous_steps images n : ∀ v,
  0 ≤ currentIndex v →
  currentIndex (foldl (step round images) v (replicate n NavigatePrevious))
  = Z.max (currentIndex v - Z.of_nat n) 0.
Proof.
  induction n as [|n IH]; intros v Hv; [simpl; lia|].
  cbn [replicate foldl step]. rewrite IH.
  - unfold navigatePrevious. case_decide; simpl; lia.
  - unfold navigatePrevious. case_decide; simpl; lia.
Qed.

(** X13. Every image can be reached and the ends hold: over a non-empty
    list, [n] presses of next from the initial viewer show the image at
    index [min n (length - 1)], and [m] presses of previous after that the
    image at index [max (min n (length - 1) - m) 0]. *)
Theorem navigation_reaches images n m :
  images ≠ [] →
  currentIndex (run round images (replicate n NavigateNext))
  = Z.min (Z.of_nat n) (len images - 1)
  ∧ currentIndex (run round images (replicate n NavigateNext ++ replicate m NavigatePrevious))
    = Z.max (Z.min (Z.of_nat n) (len images - 1) - Z.of_nat m) 0.
Proof.
  intros Hne.
  assert (0 ≤ len images - 1) as Hlen.
  { unfold len. destruct images; [done | simpl; lia]. }
  unfold run. rewrite foldl_app, previous_steps, !next_steps; simpl; try lia.
  rewrite next_steps; simpl; lia.
Qed.

(** X14. A button of the viewer is disabled only where its handler would
    change nothing: the next and previous buttons are disabled exactly when
    [navigateNext] and [navigatePrevious] leave the viewer as it is, and
    where the zoom-in or zoom-out button is disabled (zoom at 5, zoom at
    0.5) the handler would leave the zoom where it is. *)
Theorem disabled_buttons_do_nothing images v :
  roundsToDouble round →
  zoomInBounds v →
  (nextDisabled images v = true ↔ navigateNext images v = v)
  ∧ (previousDisabled v = true ↔ navigatePrevious images v = v)
  ∧ (zoomInDisabled v = true → (zoom (handleZoomIn round v) == zoom v)%Q)
  ∧ (zoomOutDisabled v = true → (zoom (handleZoomOut round v) == zoom v)%Q).
Proof.
  intros (Hmono & Hhalf & Hfive) [Hlo Hhi].
  unfold nextDisabled, previousDisabled, zoomInDisabled, zoomOutDisabled.
  split; [|split; [|split]].
  - rewrite bool_decide_eq_true. unfold navigateNext. case_decide; split; try done; try lia.
    intros Heq. apply (f_equal currentIndex) in Heq. simpl in Heq. lia.
  - rewrite bool_decide_eq_true. unfold navigatePrevious.
    case_decide; split; try done; try lia.
    intros Heq. apply (f_equal currentIndex) in Heq. simpl in Heq. lia.
  - intros Hcap%Qle_bool_iff. simpl.
    assert (zoom v == 5)%Q as Hz by lra.
    rewrite Q.min_r; [by symmetry|].
    rewrite <- Hfive. apply Hmono. lra.
  - intros Hfloor%Qle_bool_iff. simpl.
    assert (zoom v == 1 # 2)%Q as Hz by lra.
    rewrite Q.max_r; [by symmetry|].
    rewrite <- Hhalf. apply Hmono.
    unfold Qdiv. change (/ (3 # 2))%Q with (2 # 3)%Q. lra.
Qed.



End ViewerExtras.

(** * Further properties: preloading, symbols, loading *)

Section PreloadExtras.

Lemma preloadStep_fold images (indices : list Z) : ∀ preloaded,
  (∀ i, i ∈ indices → 0 ≤ i ≤ len images - 1) →
  ∃ newPreloaded,
    foldl (preloadStep images) (Returned preloaded) indices = Returned newPreloaded
    ∧ preloaded ⊆ newPreloaded
    ∧ (∀ i img, i ∈ indices → imageAt images i = Some img →
         truthy_string (dataUrl img) = true →
         is_Some (newPreloaded !! blob_id (image img)))
    ∧ (∀ id url, newPreloaded !! id = Some url →
         preloaded !! id = Some url
         ∨ ∃ i img, i ∈ indices ∧ imageAt images i = Some img
                    ∧ blob_id (image img) = id ∧ dataUrl img = Some url).
Proof.
  induction indices as [|i indices IH]; intros preloaded Hbounds.
  - exists preloaded. split; [done|]. split; [done|]. split.
    + intros i img Hi. by apply elem_of_nil in Hi.
    + intros id url Hid. by left.
  - destruct (imageAt_in_bounds images i) as [img Himg]; [apply Hbounds; by left|].
    cbn [foldl preloadStep]. rewrite Himg.
    set (wanted := truthy_string (dataUrl img)
                   && negb (bool_decide (is_Some (preloaded !! blob_id (image img))))).
    set (next := if wanted
                 then <[blob_id (image img) := default "" (dataUrl img)]> preloaded
                 else preloaded).
    assert ((if wanted then Returned (<[blob_id (image img) := default "" (dataUrl img)]> preloaded)
             else Returned preloaded) = Returned next) as -> by (subst next; by destruct wanted).
    assert (preloaded ⊆ next) as Hnext.
    { subst next wanted. destruct (truthy_string (dataUrl img)); [|done]. simpl.
      case_bool_decide as Hhas; [done|]. simpl. apply insert_subseteq.
      by apply eq_None_not_Some. }
    destruct (IH next) as (final & Hrun & Hsub & Hall & Hfrom).
    { intros j Hj. apply Hbounds. by right. }
    exists final. split; [done|]. split; [by etrans|]. split.
    + intros j img' [->|Hj]%elem_of_cons Himg' Htruthy; [|by eapply Hall].
      assert (img' = img) as -> by congruence.
      assert (is_Some (next !! blob_id (image img))) as [url Hurl].
      { subst next wanted. rewrite Htruthy. simpl.
        case_bool_decide as Hhas; simpl; [done|]. rewrite lookup_insert_eq. by eexists. }
      exists url. by eapply lookup_weaken.
    + intros id url Hid. destruct (Hfrom id url Hid) as [Hin|(j & img' & Hj & ? & ? & ?)].
      * subst next wanted.
        destruct (truthy_string (dataUrl img)) eqn:Htruthy; [|by left]. simpl in Hin.
        case_bool_decide as Hhas; simpl in Hin; [by left|].
        rewrite lookup_insert in Hin. case_decide as Hkey; [|by left].
        right. exists i, img. split; [by left|]. split; [done|]. split; [done|].
        injection Hin as <-. destruct (dataUrl img); [done | discriminate].
      * right. exists j, img'. split; [by right | done].
Qed.

(** X16. [preloadAdjacentImages] never reads outside the list (it does not
    throw, whatever the index and however short the list), never drops or
    overwrites what is already preloaded, afterwards holds an entry for
    every image within two places of the index that has a data URL, and
    adds nothing but the data URLs of images in that window, each under the
    id of its image. *)
Theorem preloadAdjacentImages_window index images preloaded :
  ∃ newPreloaded,
    preloadAdjacentImages index images preloaded = Returned newPreloaded
    ∧ preloaded ⊆ newPreloaded
    ∧ (∀ i img, 0 ≤ i → index - 2 ≤ i ≤ index + 2 → imageAt images i = Some img →
         truthy_string (dataUrl img) = true →
         is_Some (newPreloaded !! blob_id (image img)))
    ∧ (∀ id url, newPreloaded !! id = Some url →
         preloaded !! id = Some url
         ∨ ∃ i img, index - 2 ≤ i ≤ index + 2 ∧ imageAt images i = Some img
                    ∧ blob_id (image img) = id ∧ dataUrl img = Some url).
Proof.
  unfold preloadAdjacentImages.
  destruct (preloadStep_fold images
              (seqZ (preloadFrom index) (preloadTo images index - preloadFrom index + 1))
              preloaded) as (final & Hrun & Hsub & Hall & Hfrom).
  { intros i Hi%elem_of_seqZ. unfold preloadFrom, preloadTo, preloadRange in Hi. lia. }
  exists final. split; [done|]. split; [done|]. split.
  - intros i img Hi Hwin Himg Htruthy. apply (Hall i img); [|done|done].
    apply elem_of_seqZ. unfold preloadFrom, preloadTo, preloadRange.
    assert (i ≤ len images - 1).
    { unfold imageAt in Himg. rewrite decide_True in Himg by done.
      apply lookup_lt_Some in Himg. unfold len. lia. }
    lia.
  - intros id url Hid. destruct (Hfrom id url Hid) as [?|(i & img & Hi & ? & ? & ?)];
      [by left|].
    right. exists i, img. split; [|done].
    apply elem_of_seqZ in Hi. unfold preloadFrom, preloadTo, preloadRange in Hi. lia.
Qed.

End PreloadExtras.

Section SymbolExtras.

Context (toLowerCase : string → string).

(** X17. The dropdown of the symbol search shows at most ten symbols, in
    the order of the symbol list; with a search string every symbol shown
    contains it, case put aside; and the symbols shown are the first ten of
    those that match (all the symbols, for an empty search), so that nothing
    is left out when at most ten match. *)
Theorem filteredSymbols_first_ten (uniqueSymbols : list string) symbolSearch :
  let shown := filteredSymbols toLowerCase uniqueSymbols symbolSearch in
  let matching :=
    if bool_decide (symbolSearch = "") then uniqueSymbols
    else List.filter (symbolMatches toLowerCase symbolSearch) uniqueSymbols in
  (length shown ≤ 10)%nat
  ∧ shown `sublist_of` uniqueSymbols
  ∧ shown `prefix_of` matching
  ∧ (symbolSearch ≠ "" →
       ∀ symbol, symbol ∈ shown →
         includes (toLowerCase symbol) (toLowerCase symbolSearch) = true)
  ∧ ((length matching ≤ 10)%nat → shown = matching).
Proof.
  intros shown matching.
  assert (shown = take 10 matching) as ->.
  { subst shown matching. unfold filteredSymbols. by case_bool_decide. }
  split; [rewrite length_take; lia|]. split.
  - etrans; [apply sublist_take|]. subst matching. case_bool_decide; [done|].
    apply filter_sublist.
  - split; [apply prefix_take|]. split.
    + intros Hsearch symbol Hin. subst matching. rewrite bool_decide_eq_false_2 in Hin by done.
      apply elem_of_take in Hin as (i & Hin & _). apply list_elem_of_lookup_2 in Hin.
      apply list_elem_of_In, filter_In in Hin as [_ Hmatch]. done.
    + intros Hfew. by apply take_ge.
Qed.

End SymbolExtras.


#[global] Instance stringLe_total : Total stringLe.
Proof. intros a b. apply String.leb_total. Qed.


Section LoadingExtras.

Context (readAsDataURL : ChartImageWithContext → outcome string).




End LoadingExtras.

(** * Further properties of the upload component *)

Section UploadExtras.

Context (crashes rejects : DbCall → bool).
Context (validateImageFile : File → bool)
        (compressImage : File → list Z)
        (INLINE_THRESHOLD : Z)
        (storageAtThreshold : Storage)
        (newImageId newBlobId : string)
        (now : Date)
        (validationError : File → option string).

Local Abbreviation attach :=
  (attachChartImage crashes rejects validateImageFile compressImage INLINE_THRESHOLD
     storageAtThreshold newImageId newBlobId now).
Local Abbreviation select :=
  (handleFileSelect crashes rejects validateImageFile compressImage INLINE_THRESHOLD
     storageAtThreshold newImageId newBlobId now validationError).

Lemma orElse_nonempty message fallback : fallback ≠ "" → orElse message fallback ≠ "".
Proof.
  intros Hfallback. unfold orElse.
  destruct message as [[|c rest]|]; simpl; done.
Qed.

(** X20. A blocked upload never reaches the database.  When the component
    is disabled [handleFileSelect] changes nothing at all; when the file
    fails the validation it makes no call to the gateway, does not call
    [onImageUploaded], and ends with a non-empty error message, the one
    of the validation if it gave one, and with [isUploading] false. *)
Theorem handleFileSelect_blocked tradeId imageType disabled file u db :
  (disabled = true →
     select tradeId imageType disabled file u db = (Returned (u, []), db))
  ∧ (disabled = false → validateImageFile file = false →
     ∃ ended message,
       select tradeId imageType disabled file u db = (Returned (ended, []), db)
       ∧ uploadError ended = Some message ∧ message ≠ ""
       ∧ (truthy_string (validationError file) = true →
            validationError file = Some message)
       ∧ isUploading ended = false ∧ uploadProgress ended = 0).
Proof.
  split.
  - intros ->. done.
  - intros -> Hinvalid. unfold handleFileSelect. rewrite Hinvalid. unfold_monad. simpl.
    eexists _, _. split; [reflexivity|]. simpl. split; [done|].
    split; [by apply orElse_nonempty|]. split; [|done].
    intros Htruthy. unfold orElse. rewrite Htruthy.
    by destruct (validationError file).
Qed.

(** X21. An upload that is not blocked attaches the file with compression
    asked for, and ends by its result: [onImageUploaded] is called exactly
    when [attachChartImage] succeeded, once, with the descriptor it
    returned, and then no error is shown; otherwise a non-empty error
    message is shown.  Either way the handler ends with [isUploading]
    false and the progress back at 0, and the database is as the attach
    left it. *)
Theorem handleFileSelect_outcome tradeId imageType file u db :
  validateImageFile file = true →
  let attached :=
    attachChartImage crashes rejects validateImageFile compressImage INLINE_THRESHOLD
      storageAtThreshold newImageId newBlobId now tradeId imageType file true db in
  ∃ result ended uploaded,
    attached.1 = Returned result
    ∧ handleFileSelect crashes rejects validateImageFile compressImage INLINE_THRESHOLD
        storageAtThreshold newImageId newBlobId now validationError
        tradeId imageType false file u db
      = (Returned (ended, uploaded), attached.2)
    ∧ (success result = true →
         uploaded = option_list (chartImage result) ∧ length uploaded = 1%nat
         ∧ uploadError ended = None)
    ∧ (success result = false →
         uploaded = [] ∧ ∃ message, uploadError ended = Some message ∧ message ≠ "")
    ∧ isUploading ended = false
    ∧ uploadProgress ended = 0
    ∧ dragActive ended = dragActive u.
Proof.
  intros Hvalid attached. subst attached.
  unfold handleFileSelect. rewrite Hvalid. unfold_monad. cbn [negb].
  destruct (createChartImage_valid validateImageFile compressImage INLINE_THRESHOLD
              storageAtThreshold newImageId newBlobId now file true db Hvalid)
    as (created & Hcreated & _).
  rewrite (attachChartImage_run _ _ _ _ _ _ _ _ _ _ _ _ _ _ _ Hcreated).
  destruct (usesBlob created).
  - cbv zeta. set (call := SaveChartImageBlob _).
    destruct (crashes call); [|destruct (rejects call)]; simpl;
      eexists _, _, _; (split; [reflexivity|]); (split; [reflexivity|]); simpl;
      repeat split; try done; by eexists.
  - simpl. eexists _, _, _. split; [reflexivity|]. split; [reflexivity|]. simpl.
    repeat split; done.
Qed.

End UploadExtras.

(** * Further properties: validation of typed data, failed trade deletes *)

Section TypedValidation.

Context (ALLOWED_TYPES : list string) (dataValue : list Z → JsValue).

Lemma validateChartImage_typed (c : ChartImage) :
  validateChartImage ALLOWED_TYPES (chartImageValue dataValue c)
  = bool_decide (ci_mimeType c ∈ ALLOWED_TYPES).
Proof.
  unfold validateChartImage, chartImageValue. cbn.
  destruct (ci_storage c); cbn; by rewrite ?andb_true_r.
Qed.

(** X23. On data of the declared types the validator checks the MIME type
    and nothing else: attachments whose entries are [ChartImage] objects
    are accepted exactly when the MIME type of each entry that is present
    is in the allow-list.  In particular a descriptor with storage "blob"
    and no blobId is accepted. *)
Theorem validateChartAttachments_typed (beforeEntry afterExit : option ChartImage) :
  validateChartAttachments ALLOWED_TYPES (attachmentsValue dataValue beforeEntry afterExit)
  = true
  ↔ (∀ c, beforeEntry = Some c → ci_mimeType c ∈ ALLOWED_TYPES)
    ∧ (∀ c, afterExit = Some c → ci_mimeType c ∈ ALLOWED_TYPES).
Proof.
  unfold validateChartAttachments, attachmentsValue.
  destruct beforeEntry as [b|], afterExit as [a|]; cbn -[validateChartImage chartImageValue];
    rewrite ?validateChartImage_typed.
  - destruct (bool_decide_reflect (ci_mimeType b ∈ ALLOWED_TYPES)) as [Hb|Hb];
      destruct (bool_decide_reflect (ci_mimeType a ∈ ALLOWED_TYPES)) as [Ha|Ha]; cbn;
      split; try done.
    + intros _. split; by intros c [= <-].
    + intros [_ H]. destruct Ha. by apply H.
    + intros [H _]. destruct Hb. by apply H.
    + intros [H _]. destruct Hb. by apply H.
  - destruct (bool_decide_reflect (ci_mimeType b ∈ ALLOWED_TYPES)) as [Hb|Hb]; cbn;
      split; try done.
    + intros _. split; [by intros c [= <-] | done].
    + intros [H _]. destruct Hb. by apply H.
  - destruct (bool_decide_reflect (ci_mimeType a ∈ ALLOWED_TYPES)) as [Ha|Ha]; cbn;
      split; try done.
    + intros _. split; [done | by intros c [= <-]].
    + intros [_ H]. destruct Ha. by apply H.
  - done.
Qed.

End TypedValidation.

Section SoftFailureExtras.

Context (crashes rejects : DbCall → bool).

(** X22. What a refused trade delete leaves behind, the orphan cleanup
    collects.  When the gateway refuses [deleteTradeChartImageBlobs],
    [deleteTradeChartImages] still returns [true] and every blob record is
    still in the table; once the trade is no longer among the trades, a
    [cleanupOrphanedBlobs] whose deletes are carried out leaves no record
    of that trade. *)
Theorem cleanup_collects_after_refused_trade_delete tradeId db :
  neverCrashes crashes →
  rejects (DeleteTradeChartImageBlobs tradeId) = true →
  (∀ id, rejects (DeleteChartImageBlob id) = false) →
  keyed (chartImageBlobs db) →
  tradeId ∉ tradeIdSet (trades db) →
  let deleted := deleteTradeChartImages crashes rejects tradeId db in
  deleted.1 = Returned true
  ∧ chartImageBlobs deleted.2 = chartImageBlobs db
  ∧ ∀ k b, chartImageBlobs (cleanupOrphanedBlobs crashes rejects deleted.2).2 !! k = Some b →
           blob_tradeId b ≠ tradeId.
Proof.
  intros Hhealthy Hrefused Hdeletes Hkeyed Hgone deleted. subst deleted.
  unfold deleteTradeChartImages, deleteTradeChartImageBlobs. unfold_monad.
  rewrite Hhealthy, Hrefused. cbn [fst snd].
  split; [done|]. split; [done|].
  intros k b Hk. rewrite cleanupOrphanedBlobs_table in Hk by done.
  apply map_lookup_filter_Some in Hk as [_ Hkept]. simpl in Hkept.
  unfold removed, orphaned in Hkept. rewrite Hdeletes, andb_true_r in Hkept.
  apply bool_decide_eq_false in Hkept. intros Heq. apply Hkept.
  by rewrite Heq.
Qed.

End SoftFailureExtras.

(** * The further properties on the sample journal *)

Lemma cleanupOrphanedBlobs_never_harms_current_trades_witness :
  chartImageBlobs (cleanupOrphanedBlobs (failsOn "b3") (failsOn "b2") sampleDb).2 !! "b1"
  = Some (sampleBlob "b1" "t1" beforeEntry 10).
Proof.
  destruct (cleanupOrphanedBlobs_never_harms_current_trades
              (failsOn "b3") (failsOn "b2") sampleDb keyed_sampleDb) as (_ & _ & Hkept).
  apply Hkept; [reflexivity | decided].
Defined.

Lemma cleanupOrphanedBlobs_idempotent_witness :
  (cleanupOrphanedBlobs healthy healthy
     (cleanupOrphanedBlobs healthy healthy sampleDb).2).1
  = Returned {| cleaned := 0; errors := 0 |}.
Proof.
  exact (proj1 (cleanupOrphanedBlobs_idempotent healthy healthy sampleDb
                  healthy_neverCrashes (λ c, eq_refl) keyed_sampleDb)).
Defined.

Lemma cleanupOrphanedBlobs_read_failure_witness :
  (cleanupOrphanedBlobs failsOnTrades healthy sampleDb).1
  = Returned {| cleaned := 0; errors := 1 |}
  ∧ chartImageBlobs (cleanupOrphanedBlobs failsOnTrades healthy sampleDb).2
    = chartImageBlobs sampleDb.
Proof.
  destruct (cleanupOrphanedBlobs_read_failure failsOnTrades healthy sampleDb
              (or_intror eq_refl)) as (Hresult & Htable & _).
  exact (conj Hresult Htable).
Defined.

Lemma attach_then_delete_restores_table_witness :
  ∃ created,
    (attachChartImage healthy healthy (λ _, true) file_bytes 3 Inline "c9" "b9" 0
       "t1" afterExit sampleFile false sampleDb).1
    = Returned {| success := true; chartImage := Some created; error := None |}
    ∧ chartImageBlobs
        (deleteChartImage healthy healthy "t1" afterExit created
           (attachChartImage healthy healthy (λ _, true) file_bytes 3 Inline "c9" "b9" 0
              "t1" afterExit sampleFile false sampleDb).2).2
      = chartImageBlobs sampleDb.
Proof.
  destruct (attach_then_delete_restores_table healthy healthy (λ _, true) file_bytes 3 Inline
              "c9" "b9" 0 "t1" afterExit sampleFile false sampleDb
              eq_refl ltac:(discriminate) eq_refl healthy_neverCrashes (λ c, eq_refl))
    as (created & Hattached & _ & Hrestored).
  exists created. exact (conj Hattached Hrestored).
Defined.

Lemma attach_then_cleanup_witness :
  let attach tradeId :=
    (attachChartImage healthy healthy (λ _, true) file_bytes 3 Inline "c9" "b9" 0
       tradeId afterExit sampleFile false sampleDb).2 in
  is_Some (chartImageBlobs (cleanupOrphanedBlobs healthy healthy (attach "t1")).2 !! "b9")
  ∧ chartImageBlobs (cleanupOrphanedBlobs healthy healthy (attach "t7")).2 !! "b9" = None.
Proof.
  destruct (attach_then_cleanup healthy healthy (λ _, true) file_bytes 3 Inline
              "c9" "b9" 0 "t1" afterExit sampleFile false sampleDb
              eq_refl ltac:(discriminate) eq_refl healthy_neverCrashes (λ c, eq_refl)
              keyed_sampleDb) as (Hthere & Hlisted & _).
  destruct (attach_then_cleanup healthy healthy (λ _, true) file_bytes 3 Inline
              "c9" "b9" 0 "t7" afterExit sampleFile false sampleDb
              eq_refl ltac:(discriminate) eq_refl healthy_neverCrashes (λ c, eq_refl)
              keyed_sampleDb) as (_ & _ & Hunlisted).
  split.
  - rewrite Hlisted; [exact Hthere | decided].
  - apply Hunlisted. decided.
Defined.

Lemma stats_after_attach_witness :
  ∃ after,
    (getStorageStats healthy
       (attachChartImage healthy healthy (λ _, true) file_bytes 3 Inline "c9" "b9" 0
          "t1" afterExit sampleFile false sampleDb).2).1 = Returned after
    ∧ blobImages after = 4%nat ∧ blobSize after = 64.
Proof.
  destruct (stats_after_attach healthy healthy (λ _, true) file_bytes 3 Inline
              "c9" "b9" 0 "t1" afterExit sampleFile false sampleDb
              eq_refl ltac:(discriminate) eq_refl healthy_neverCrashes (λ c, eq_refl))
    as (before & after & Hbefore & Hafter & _ & Hblob).
  destruct (Hblob eq_refl) as (Hcount & _ & Hsize & _).
  exists after. split; [exact Hafter|].
  assert (before = {| totalImages := 3; totalSize := 60; inlineImages := 0;
                      inlineSize := 0; blobImages := 3; blobSize := 60 |}) as Hstats.
  { assert (Returned before = Returned {| totalImages := 3; totalSize := 60;
                inlineImages := 0; inlineSize := 0; blobImages := 3; blobSize := 60 |})
      as Heq by (rewrite <- Hbefore; vm_compute; reflexivity).
    by injection Heq. }
  rewrite Hcount, Hsize, Hstats. split; reflexivity.
Defined.

Lemma navigation_reaches_witness :
  currentIndex (run exactRounding sampleImages
                  (replicate 7 NavigateNext ++ replicate 2 NavigatePrevious)) = 2.
Proof.
  destruct (navigation_reaches exactRounding sampleImages 7 2 ltac:(discriminate))
    as [_ Hback].
  rewrite Hback. reflexivity.
Defined.

Lemma zoomedViewer_zoomInBounds : zoomInBounds zoomedViewer.
Proof. split; simpl; lra. Qed.

Lemma disabled_buttons_do_nothing_witness :
  navigateNext sampleImages zoomedViewer = zoomedViewer
  ∧ (zoom (handleZoomIn roundToGrid zoomedViewer) == zoom zoomedViewer)%Q.
Proof.
  destruct (disabled_buttons_do_nothing roundToGrid sampleImages zoomedViewer
              roundToGrid_roundsToDouble zoomedViewer_zoomInBounds)
    as (Hnext & _ & Hzoom & _).
  split; [apply Hnext | apply Hzoom]; reflexivity.
Defined.

Lemma handleFileSelect_outcome_witness :
  ∃ ended uploaded,
    (handleFileSelect healthy healthy (λ _, true) file_bytes 3 Inline "c9" "b9" 0
       (λ _, None) "t1" afterExit false sampleFile
       {| isUploading := false; uploadProgress := 0; dragActive := true;
          uploadError := Some "old" |} sampleDb).1 = Returned (ended, uploaded)
    ∧ isUploading ended = false ∧ uploadProgress ended = 0.
Proof.
  destruct (handleFileSelect_outcome healthy healthy (λ _, true) file_bytes 3 Inline
              "c9" "b9" 0 (λ _, None) "t1" afterExit sampleFile
              {| isUploading := false; uploadProgress := 0; dragActive := true;
                 uploadError := Some "old" |} sampleDb eq_refl)
    as (result & ended & uploaded & _ & Hrun & _ & _ & Hidle & Hprogress & _).
  exists ended, uploaded. rewrite Hrun. exact (conj eq_refl (conj Hidle Hprogress)).
Defined.

Lemma cleanup_collects_after_refused_trade_delete_witness :
  (deleteTradeChartImages healthy refusesTradeDeletes "t2" sampleDb).1 = Returned true
  ∧ chartImageBlobs (deleteTradeChartImages healthy refusesTradeDeletes "t2" sampleDb).2
    = chartImageBlobs sampleDb.
Proof.
  destruct (cleanup_collects_after_refused_trade_delete healthy refusesTradeDeletes
              "t2" sampleDb healthy_neverCrashes eq_refl (λ id, eq_refl) keyed_sampleDb
              ltac:(decided)) as (Hreturned & Htable & _).
  exact (conj Hreturned Htable).
Defined.

(** The sample runs of the further properties. *)
Example upload_sample :
  handleFileSelect healthy healthy (λ _, true) file_bytes 3 Inline "c9" "b9" 0
    (λ _, None) "t1" afterExit false sampleFile
    {| isUploading := false; uploadProgress := 0; dragActive := true;
       uploadError := Some "old" |} sampleDb
  = (Returned
       ({| isUploading := false; uploadProgress := 0; dragActive := true;
           uploadError := None |},
        [ {| ci_id := "c9"; ci_filename := "entry.png"; ci_mimeType := "image/png";
             ci_size := 4; ci_uploadedAt := 0; ci_storage := Blob;
             ci_blobId := Some "b9"; ci_compressed := Some true;
             ci_originalSize := Some 4; ci_data := None |} ]),
     (attachChartImage healthy healthy (λ _, true) file_bytes 3 Inline "c9" "b9" 0
        "t1" afterExit sampleFile true sampleDb).2).
Proof. reflexivity. Qed.

Example upload_invalid_sample :
  handleFileSelect healthy healthy (λ _, false) file_bytes 3 Inline "c9" "b9" 0
    (λ _, Some "File too large") "t1" afterExit false sampleFile
    {| isUploading := false; uploadProgress := 0; dragActive := false;
       uploadError := None |} sampleDb
  = (Returned
       ({| isUploading := false; uploadProgress := 0; dragActive := false;
           uploadError := Some "File too large" |}, []), sampleDb).
Proof. reflexivity. Qed.

Example uniqueSymbols_sample :
  uniqueSymbols sampleImages = ["INFY"; "Infosys"; "TCS"; "infy"].
Proof. vm_compute. reflexivity. Qed.

Example filteredSymbols_sample :
  filteredSymbols asciiToLowerCase (uniqueSymbols sampleImages) "inf"
  = ["INFY"; "Infosys"; "infy"].
Proof. vm_compute. reflexivity. Qed.

Example preloadAdjacentImages_sample :
  preloadAdjacentImages 0
    [ {| image := sampleBlob "b1" "t1" beforeEntry 10; tradeName := None;
         tradeDate := None; tradeNo := None; dataUrl := Some "data:1" |};
      {| image := sampleBlob "b2" "t2" afterExit 20; tradeName := None;
         tradeDate := None; tradeNo := None; dataUrl := None |};
      {| image := sampleBlob "b3" "t3" beforeEntry 30; tradeName := None;
         tradeDate := None; tradeNo := None; dataUrl := Some "data:3" |};
      {| image := sampleBlob "b4" "t4" beforeEntry 40; tradeName := None;
         tradeDate := None; tradeNo := None; dataUrl := Some "data:4" |} ]
    {[ "b1" := "data:old" ]}
  = Returned (<["b3" := "data:3"]> {[ "b1" := "data:old" ]}).
Proof. vm_compute. reflexivity. Qed.

Example preloadAdjacentImages_empty :
  preloadAdjacentImages 3 [] ∅ = Returned ∅.
Proof. reflexivity. Qed.

Example panning_sample :
  position (foldl (onMouse exactRounding)
              (zoomedViewer, {| isDragging := false; dragStart := (0, 0)%Q |})
              [MouseMove 50 50; MouseDown 100 100; MouseMove 130 90; MouseUp;
               MouseMove 500 500]).1
  = (42, -17)%Q.
Proof. vm_compute. reflexivity. Qed.

Example validateChartImage_blob_without_blobId :
  validateChartAttachments sampleAllowedTypes
    (attachmentsValue (λ _, JsString "")
       (Some {| ci_id := "c"; ci_filename := "f.png"; ci_mimeType := "image/png";
                ci_size := 1; ci_uploadedAt := 0; ci_storage := Blob; ci_blobId := None;
                ci_compressed := None; ci_originalSize := None; ci_data := None |})
       None)
  = true.
Proof. reflexivity. Qed.
